(** * slapd: keeping a Slack user group in step with the PagerDuty rota

    A shallow embedding of [src/app.js] and the properties its
    specification states about it.

    The script is a straight line of HTTP calls.  Every [async] function
    awaits its calls one after the other, so a run is a sequential
    computation that threads the outside world (PagerDuty and Slack, which
    answer the requests) and accumulates what it does (the requests it
    sends and the lines it prints).  Exceptions are the other
    effect: [axios] rejects on a transport failure or a non-2xx status, the
    code throws [new Error(...)] itself, and each of the five functions
    wraps its body in [try]/[catch]: two of them throw the error again
    under a longer message, three print it and go on.

    JSON bodies are modelled by records that follow the shapes the code
    reads.  A field is optional exactly where the source tests it for
    presence ([oncall.user && ...], [response.data.oncalls || []], ...);
    identifiers and names, which the code only copies and compares, are
    strings. *)

From Stdlib Require Import String Ascii List Bool Arith Lia.
Import ListNotations.
Local Open Scope string_scope.
Local Open Scope list_scope.

Set Implicit Arguments.

(** ** JavaScript odds and ends *)

(** [Array.prototype.join]. *)
Definition join (sep : string) (xs : list string) : string :=
  String.concat sep xs.

(** [Array.prototype.includes] on an array of strings. *)
Definition includes (xs : list string) (x : string) : bool :=
  existsb (String.eqb x) xs.

(** Truthiness of a string: every string but the empty one. *)
Definition truthy (s : string) : bool :=
  negb (s =? "").

(** [a || b] where [a] is a string. *)
Definition or_else (a b : string) : string :=
  if truthy a then a else b.

(** What a template literal prints for a field that may be missing. *)
Definition render (x : option string) : string :=
  match x with
  | Some s => s
  | None => "undefined"
  end.

Definition LF : string := String (ascii_of_nat 10) "".

(** The two glyphs of the script that are not ASCII, as their UTF-8 bytes. *)
Definition bullet : string :=
  String (ascii_of_nat 226) (String (ascii_of_nat 128) (String (ascii_of_nat 162) "")).
Definition check_mark : string :=
  String (ascii_of_nat 226) (String (ascii_of_nat 156) (String (ascii_of_nat 147) "")).

(** ** [Map], kept in insertion order

    [Array.from(m.values())] lists the values in the order their keys were
    first inserted, and [m.set] on a key that is present overwrites the
    value where it stands. *)
Module JsMap.

Definition t : Type := list (string * string).

Definition empty : t := [].

Fixpoint set (k v : string) (m : t) : t :=
  match m with
  | [] => [(k, v)]
  | (k', v') :: m' =>
      if k' =? k then (k', v) :: m' else (k', v') :: set k v m'
  end.

Fixpoint get (k : string) (m : t) : option string :=
  match m with
  | [] => None
  | (k', v') :: m' => if k' =? k then Some v' else get k m'
  end.

Definition keys (m : t) : list string := map fst m.
Definition values (m : t) : list string := map snd m.

End JsMap.

(** ** Configuration ([config.json]) *)

Record Config : Type := {
  pagerdutyApiToken : string;
  slackApiToken : string;
  slackGroupId : string;
  slackChannelId : string;
  skipSchedules : list string
}.

(** ** Bodies of the responses *)

(** PagerDuty, [GET /oncalls].  [None] stands for a field that is missing
    or null, which is what the tests of the code tell apart from an
    object. *)
Record PdUser : Type := { user_id : string; summary : string }.
Record PdSchedule : Type := { schedule_id : string }.
Record OnCall : Type := { user : option PdUser; schedule : option PdSchedule }.
Record OnCallsBody : Type := { oncalls : option (list OnCall) }.

(** Slack, [usergroups.users.list]. *)
Record GroupUsersBody : Type := {
  group_ok : bool;
  group_users : option (list string);
  group_error : option string
}.

(** Slack, [users.info]. *)
Record InfoUser : Type := { info_real_name : string }.
Record UserInfoBody : Type := {
  info_ok : bool;
  info_user : option InfoUser;
  info_error : option string
}.

(** Slack, [users.list].  The code reads [member.profile.real_name]
    without a test: every entry has a profile. *)
Record Profile : Type := { profile_real_name : string }.
Record Member : Type := {
  member_id : string;
  member_name : string;
  member_real_name : string;
  member_profile : Profile
}.
Record UsersListBody : Type := {
  list_ok : bool;
  list_members : list Member;
  list_error : option string
}.

(** Slack, [usergroups.users.update] and [chat.postMessage]: the script
    never looks at these bodies. *)
Record AckBody : Type := { ack_ok : bool; ack_error : option string }.

(** ** Requests *)

Inductive Request : Type :=
| PagerDutyOnCalls (authorization accept : string)
| UsergroupsUsersList (usergroup : string) (include_disabled : bool)
    (authorization : string)
| UsersInfo (user : string) (authorization : string)
| UsersList (authorization : string)
| UsergroupsUsersUpdate (usergroup users : string)
    (authorization content_type : string)
| ChatPostMessage (channel text : string) (link_names mrkdwn : bool)
    (authorization content_type : string).

Definition ResponseData (r : Request) : Type :=
  match r with
  | PagerDutyOnCalls _ _ => OnCallsBody
  | UsergroupsUsersList _ _ _ => GroupUsersBody
  | UsersInfo _ _ => UserInfoBody
  | UsersList _ => UsersListBody
  | UsergroupsUsersUpdate _ _ _ _ => AckBody
  | ChatPostMessage _ _ _ _ _ _ => AckBody
  end.

(** The promise [axios] returns settles one of two ways: it rejects with an
    error (transport failure, or a status outside 2xx) or resolves with the
    parsed body. *)
Inductive Reply (A : Type) : Type :=
| Rejected (message : string)
| Resolved (data : A).
Arguments Rejected {A} message.
Arguments Resolved {A} data.

(** ** What a run leaves behind *)

Inductive Stream : Type := Stdout | Stderr.
Inductive Colour : Type := Blue | Green | Yellow | Red.

Inductive Event : Type :=
| Http (r : Request)
| Console (s : Stream) (c : Colour) (text : string).

(** An [Error] object; only its [message] is ever read. *)
Record Error : Type := mkError { message : string }.

Inductive Completion (A : Type) : Type :=
| Normal (a : A)
| Throw (e : Error).
Arguments Normal {A} a.
Arguments Throw {A} e.

Definition is_update (e : Event) : bool :=
  match e with
  | Http (UsergroupsUsersUpdate _ _ _ _) => true
  | _ => false
  end.

Definition is_post_message (e : Event) : bool :=
  match e with
  | Http (ChatPostMessage _ _ _ _ _ _) => true
  | _ => false
  end.

Definition is_http (e : Event) : bool :=
  match e with
  | Http _ => true
  | Console _ _ _ => false
  end.

Definition is_stderr (e : Event) : bool :=
  match e with
  | Console Stderr _ _ => true
  | _ => false
  end.

(** ** The program *)

Section Program.

(** The outside world: a state, and how it answers a request. *)
Context {World : Type}.
Variable axios : forall r : Request, World -> Reply (ResponseData r) * World.
Variable config : Config.

(** What running a computation from a world yields: how it completed,
    the world it left, and what it did on the way, oldest first. *)
Record Run (A : Type) : Type := mkRun {
  result : Completion A;
  world_after : World;
  events : list Event
}.

Definition M (A : Type) : Type := World -> Run A.

Definition ret {A} (a : A) : M A := fun w => mkRun (Normal a) w [].

Definition throw {A} (e : Error) : M A := fun w => mkRun (Throw e) w [].

(** The rest [r'] of a run whose first part did [evs]. *)
Definition after {A} (evs : list Event) (r' : Run A) : Run A :=
  match r' with
  | mkRun res w' evs' => mkRun res w' (evs ++ evs')
  end.

Definition bind {A B} (c : M A) (k : A -> M B) : M B :=
  fun w =>
    match c w with
    | mkRun (Normal a) w' evs => after evs (k a w')
    | mkRun (Throw e) w' evs => mkRun (Throw e) w' evs
    end.

Definition try_catch {A} (body : M A) (handler : Error -> M A) : M A :=
  fun w =>
    match body w with
    | mkRun (Normal a) w' evs => mkRun (Normal a) w' evs
    | mkRun (Throw e) w' evs => after evs (handler e w')
    end.

Definition emit (e : Event) : M unit :=
  fun w => mkRun (Normal tt) w [e].

Notation "x <- c ;; k" := (bind c (fun x => k))
  (at level 61, c at next level, right associativity).
Notation "c ;; k" := (bind c (fun _ => k))
  (at level 61, right associativity).

(** [console.log(chalk.<colour>(text))] and [console.error(...)]. *)
Definition console_log (c : Colour) (text : string) : M unit :=
  emit (Console Stdout c text).
Definition console_error (c : Colour) (text : string) : M unit :=
  emit (Console Stderr c text).

(** [await axios.get(...)], [await axios.post(...)]. *)
Definition await (r : Request) : M (ResponseData r) :=
  fun w =>
    match axios r w with
    | (Resolved data, w') => mkRun (Normal data) w' [Http r]
    | (Rejected msg, w') => mkRun (Throw (mkError msg)) w' [Http r]
    end.

Definition bearer : string := "Bearer " ++ slackApiToken config.

(** The calls of the script, with what each sends. *)
Definition oncallsRequest : Request :=
  PagerDutyOnCalls ("Token token=" ++ pagerdutyApiToken config)
    "application/vnd.pagerduty+json;version=2".

Definition groupUsersRequest : Request :=
  UsergroupsUsersList (slackGroupId config) true bearer.

Definition userInfoRequest (userId : string) : Request :=
  UsersInfo userId bearer.

Definition usersListRequest : Request := UsersList bearer.

Definition updateRequest (slackUserIds : list string) : Request :=
  UsergroupsUsersUpdate (slackGroupId config) (join "," slackUserIds)
    bearer "application/json".

Definition postMessageRequest (users : list string) : Request :=
  ChatPostMessage (slackChannelId config)
    (":rotating_light: On-Call Update :rotating_light:" ++ LF
     ++ "Current on-call engineers:" ++ LF
     ++ bullet ++ " " ++ join (LF ++ bullet ++ " ") users)
    false true bearer "application/json; charset=utf-8".

(** *** getOnCallUsers *)

(** [response.data.oncalls || []]. *)
Definition payload (response : OnCallsBody) : list OnCall :=
  match oncalls response with
  | Some l => l
  | None => []
  end.

(** The body of the [forEach] callback. *)
Definition addOnCall (uniqueUsers : JsMap.t) (oncall : OnCall) : JsMap.t :=
  match user oncall, schedule oncall with
  | Some u, Some sch =>
      if negb (includes (skipSchedules config) (schedule_id sch))
      then JsMap.set (user_id u) (summary u) uniqueUsers
      else uniqueUsers
  | _, _ => uniqueUsers
  end.

Definition uniqueUsersOf (oncalls : list OnCall) : JsMap.t :=
  fold_left addOnCall oncalls JsMap.empty.

Definition getOnCallUsers : M (list string) :=
  try_catch
    (console_log Blue "Fetching on-call users from PagerDuty..." ;;
     response <- await oncallsRequest ;;
     let oncalls := payload response in
     let uniqueUsers := uniqueUsersOf oncalls in
     let users := JsMap.values uniqueUsers in
     console_log Green ("Found on-call users: " ++ join ", " users) ;;
     ret users)
    (fun error =>
       throw (mkError ("Failed to get on-call users: " ++ message error))).

(** *** getCurrentGroupMembers *)

(** The [for (const userId of users)] loop. *)
Fixpoint collectUserNames (users userNames : list string) : M (list string) :=
  match users with
  | [] => ret userNames
  | userId :: rest =>
      userResponse <- await (userInfoRequest userId) ;;
      match info_ok userResponse, info_user userResponse with
      | true, Some u => collectUserNames rest (userNames ++ [info_real_name u])
      | _, _ => collectUserNames rest userNames
      end
  end.

Definition getCurrentGroupMembers : M (list string) :=
  try_catch
    (response <- await groupUsersRequest ;;
     (if negb (group_ok response)
      then throw (mkError ("Failed to get group members: "
                           ++ render (group_error response)))
      else ret tt) ;;
     let users := match group_users response with Some l => l | None => [] end in
     collectUserNames users [])
    (fun error =>
       console_error Red ("Failed to get current group members: "
                          ++ message error) ;;
       ret []).

(** *** getSlackUserIdByName *)

(** The predicate handed to [members.find]. *)
Definition nameMatches (name : string) (member : Member) : bool :=
  (member_real_name member =? name)
  || (member_name member =? name)
  || (profile_real_name (member_profile member) =? name).

Definition getSlackUserIdByName (name : string) : M (option string) :=
  try_catch
    (response <- await usersListRequest ;;
     (if negb (list_ok response)
      then throw (mkError ("Failed to list users: "
                           ++ render (list_error response)))
      else ret tt) ;;
     let found := find (nameMatches name) (list_members response) in
     ret (match found with
          | Some u => Some (member_id u)
          | None => None
          end))
    (fun error =>
       console_error Red ("Failed to get Slack ID for " ++ name ++ ": "
                          ++ message error) ;;
       ret None).

(** *** updateGroupMembers *)

(** [if (slackId)]: [null] and the empty string are falsy. *)
Definition resolved (slackId : option string) : bool :=
  match slackId with
  | Some i => truthy i
  | None => false
  end.

(** The [for (const user of users)] loop. *)
Fixpoint lookupSlackIds (users slackUserIds : list string) : M (list string) :=
  match users with
  | [] => ret slackUserIds
  | u :: rest =>
      slackId <- getSlackUserIdByName u ;;
      match slackId with
      | Some i =>
          if truthy i
          then console_log Green ("Found Slack ID for " ++ u ++ ": " ++ i) ;;
               lookupSlackIds rest (slackUserIds ++ [i])
          else console_log Yellow ("Could not find Slack ID for " ++ u) ;;
               lookupSlackIds rest slackUserIds
      | None =>
          console_log Yellow ("Could not find Slack ID for " ++ u) ;;
          lookupSlackIds rest slackUserIds
      end
  end.

Definition updateGroupMembers (users : list string) : M unit :=
  try_catch
    (console_log Blue "Current group members:" ;;
     currentMembers <- getCurrentGroupMembers ;;
     console_log Blue (or_else (join ", " currentMembers) "None") ;;
     console_log Blue (LF ++ "Looking up Slack IDs for users...") ;;
     slackUserIds <- lookupSlackIds users [] ;;
     match slackUserIds with
     | [] =>
         console_log Yellow "No valid Slack user IDs found, skipping update"
     | _ :: _ =>
         console_log Blue (LF ++ "Updating Slack user group with: "
                           ++ join ", " users) ;;
         _ <- await (updateRequest slackUserIds) ;;
         console_log Blue (LF ++ "New group members:") ;;
         newMembers <- getCurrentGroupMembers ;;
         console_log Blue (or_else (join ", " newMembers) "None") ;;
         console_log Green "Successfully updated Slack group members"
     end)
    (fun error =>
       throw (mkError ("Failed to update group members: " ++ message error))).

(** *** updateSlackGroup *)

Definition updateSlackGroup : M unit :=
  try_catch
    (console_log Yellow "Starting Slack group update..." ;;
     users <- getOnCallUsers ;;
     match users with
     | _ :: _ =>
         _ <- await (postMessageRequest users) ;;
         updateGroupMembers users ;;
         console_log Green (check_mark ++ " Slack user group update complete")
     | [] =>
         console_log Yellow "No on-call users found"
     end)
    (fun error =>
       console_error Red ("Failed to update Slack group: " ++ message error)).

End Program.

Arguments result {World A} r.
Arguments world_after {World A} r.
Arguments events {World A} r.

(** ** A world that answers from a fixed script *)

Record Script : Type := {
  on_oncalls : Reply OnCallsBody;
  on_group_users : Reply GroupUsersBody;
  on_users_info : string -> Reply UserInfoBody;
  on_users_list : Reply UsersListBody;
  on_update : Reply AckBody;
  on_post_message : Reply AckBody
}.

Definition scripted (sc : Script) (r : Request) (w : unit)
  : Reply (ResponseData r) * unit :=
  (match r return Reply (ResponseData r) with
   | PagerDutyOnCalls _ _ => on_oncalls sc
   | UsergroupsUsersList _ _ _ => on_group_users sc
   | UsersInfo u _ => on_users_info sc u
   | UsersList _ => on_users_list sc
   | UsergroupsUsersUpdate _ _ _ _ => on_update sc
   | ChatPostMessage _ _ _ _ _ _ => on_post_message sc
   end, w).

(** ** Reading the specification *)

(** A record is left out because of its schedule. *)
Definition excluded (config : Config) (oncall : OnCall) : Prop :=
  exists sch,
    schedule oncall = Some sch /\ In (schedule_id sch) (skipSchedules config).

(** A record that counts: it names the user [u] and a schedule that is not
    in the exclusion set. *)
Definition usable (config : Config) (oncall : OnCall) (u : PdUser) : Prop :=
  user oncall = Some u /\
  exists sch,
    schedule oncall = Some sch /\ ~ In (schedule_id sch) (skipSchedules config).

(** A directory entry carries the name in one of its three name fields. *)
Definition matches (name : string) (m : Member) : Prop :=
  member_name m = name \/
  profile_real_name (member_profile m) = name \/
  member_real_name m = name.

(** The directory listing fails: the call is rejected, or Slack answers
    with [ok] false. *)
Definition listing_fails {World : Type}
  (axios : forall r : Request, World -> Reply (ResponseData r) * World)
  (config : Config) (w : World) : Prop :=
  (exists msg w', axios (usersListRequest config) w = (Rejected msg, w')) \/
  (exists body w',
     axios (usersListRequest config) w = (Resolved body, w') /\
     list_ok body = false).

(** The identifiers of the names that resolve, looked up one after the
    other from the world [w]: a name resolves when the lookup returns an
    identifier that is not empty. *)
Fixpoint resolvedIds {World : Type}
  (axios : forall r : Request, World -> Reply (ResponseData r) * World)
  (config : Config) (names : list string) (w : World) : list string :=
  match names with
  | [] => []
  | n :: rest =>
      let r := getSlackUserIdByName axios config n w in
      let ids := resolvedIds axios config rest (world_after r) in
      match result r with
      | Normal (Some i) => if truthy i then i :: ids else ids
      | _ => ids
      end
  end.


(** What a run returned, [d] if it threw. *)
Definition value_or {World A : Type} (d : A) (r : Run (World := World) A) : A :=
  match result r with
  | Normal a => a
  | Throw _ => d
  end.

(** [c] completes normally from every world. *)
Definition succeeds {World A : Type} (c : M (World := World) A) : Prop :=
  forall w, exists a, result (c w) = Normal a.

(** [c] does nothing of the kind [P], from any world. *)
Definition quiet {World A : Type} (P : Event -> bool)
  (c : M (World := World) A) : Prop :=
  forall w, filter P (events (c w)) = [].

(** What updateSlackGroup prints first, and what it prints for an error. *)
Definition starting : Event :=
  Console Stdout Yellow "Starting Slack group update...".

Definition failed (e : Error) : Event :=
  Console Stderr Red ("Failed to update Slack group: " ++ message e).

(** ** A small installation to run the script on *)

Module Demo.

Definition config : Config := {|
  pagerdutyApiToken := "pd-token";
  slackApiToken := "xoxb-token";
  slackGroupId := "G1";
  slackChannelId := "C1";
  skipSchedules := ["S1"]
|}.

Definition oncall (uid name sid : string) : OnCall := {|
  user := Some {| user_id := uid; summary := name |};
  schedule := Some {| schedule_id := sid |}
|}.

Definition member (uid handle name : string) : Member := {|
  member_id := uid;
  member_name := handle;
  member_real_name := name;
  member_profile := {| profile_real_name := name |}
|}.

Definition directory : list Member :=
  [member "W1" "alice" "Alice"; member "W2" "bob" "Bob";
   member "W3" "alice2" "Alice"].

Definition ack : Reply AckBody :=
  Resolved {| ack_ok := true; ack_error := None |}.

(** Everything works: Alice is on call twice, once on a schedule that is
    left out, and Bob once. *)
Definition healthy : Script := {|
  on_oncalls :=
    Resolved {| oncalls := Some [oncall "U1" "Alice" "S1";
                                 oncall "U1" "Alice" "S2";
                                 oncall "U2" "Bob" "S3"] |};
  on_group_users :=
    Resolved {| group_ok := true; group_users := Some ["W1"];
                group_error := None |};
  on_users_info := fun _ =>
    Resolved {| info_ok := true;
                info_user := Some {| info_real_name := "Alice" |};
                info_error := None |};
  on_users_list :=
    Resolved {| list_ok := true; list_members := directory;
                list_error := None |};
  on_update := ack;
  on_post_message := ack
|}.

Definition with_oncalls (r : Reply OnCallsBody) (sc : Script) : Script := {|
  on_oncalls := r;
  on_group_users := on_group_users sc;
  on_users_info := on_users_info sc;
  on_users_list := on_users_list sc;
  on_update := on_update sc;
  on_post_message := on_post_message sc
|}.

(** The scenario of the specification: one user on two schedules, the
    first of which is left out. *)
Definition alice_twice : Script :=
  with_oncalls
    (Resolved {| oncalls := Some [oncall "U1" "Alice" "S1";
                                  oncall "U1" "Alice" "S2"] |})
    healthy.

(** Another user first, then one user under two display names. *)
Definition bob_and_alice_renamed : Script :=
  with_oncalls
    (Resolved {| oncalls := Some [oncall "U2" "Bob" "S3";
                                  oncall "U1" "Alice A." "S2";
                                  oncall "U1" "Alice B." "S4"] |})
    healthy.

(** Slack refuses the directory listing. *)
Definition not_authed : Reply UsersListBody :=
  Resolved {| list_ok := false; list_members := [];
              list_error := Some "not_authed" |}.

(** PagerDuty is down. *)
Definition pagerduty_500 : Script :=
  with_oncalls (Rejected "Request failed with status code 500") healthy.

(** Nobody on call but on the schedule that is left out. *)
Definition only_excluded : Script :=
  with_oncalls
    (Resolved {| oncalls := Some [oncall "U1" "Alice" "S1";
                                  {| user := None; schedule := None |}] |})
    healthy.

(** A body without the oncalls field. *)
Definition no_oncalls_field : Script :=
  with_oncalls (Resolved {| oncalls := None |}) healthy.

Definition with_users_list (r : Reply UsersListBody) (sc : Script) : Script := {|
  on_oncalls := on_oncalls sc;
  on_group_users := on_group_users sc;
  on_users_info := on_users_info sc;
  on_users_list := r;
  on_update := on_update sc;
  on_post_message := on_post_message sc
|}.

Definition with_group_users (r : Reply GroupUsersBody) (sc : Script) : Script := {|
  on_oncalls := on_oncalls sc;
  on_group_users := r;
  on_users_info := on_users_info sc;
  on_users_list := on_users_list sc;
  on_update := on_update sc;
  on_post_message := on_post_message sc
|}.

Definition with_users_info (r : Reply UserInfoBody) (sc : Script) : Script := {|
  on_oncalls := on_oncalls sc;
  on_group_users := on_group_users sc;
  on_users_info := fun _ => r;
  on_users_list := on_users_list sc;
  on_update := on_update sc;
  on_post_message := on_post_message sc
|}.

Definition with_update (r : Reply AckBody) (sc : Script) : Script := {|
  on_oncalls := on_oncalls sc;
  on_group_users := on_group_users sc;
  on_users_info := on_users_info sc;
  on_users_list := on_users_list sc;
  on_update := r;
  on_post_message := on_post_message sc
|}.

Definition with_post_message (r : Reply AckBody) (sc : Script) : Script := {|
  on_oncalls := on_oncalls sc;
  on_group_users := on_group_users sc;
  on_users_info := on_users_info sc;
  on_users_list := on_users_list sc;
  on_update := on_update sc;
  on_post_message := r
|}.




(** Slack answers users.info with an error. *)
Definition user_not_found : UserInfoBody :=
  {| info_ok := false; info_user := None;
     info_error := Some "user_not_found" |}.

Definition info_refused : Script :=
  with_users_info (Resolved user_not_found) healthy.

(** Slack answers the group listing with an error. *)
Definition missing_scope : GroupUsersBody :=
  {| group_ok := false; group_users := None;
     group_error := Some "missing_scope" |}.

(** Slack answers the overwrite request, and the message, with an
    error. *)
Definition permission_denied : Reply AckBody :=
  Resolved {| ack_ok := false; ack_error := Some "permission_denied" |}.

Definition writes_refused : Script :=
  with_post_message permission_denied (with_update permission_denied healthy).

End Demo.

(** ** More to read the code against *)

(** The users of the records that count, in payload order. *)
Definition countingUsers (config : Config) (oncalls : list OnCall) : list PdUser :=
  flat_map
    (fun oncall =>
       match user oncall, schedule oncall with
       | Some u, Some sch =>
           if includes (skipSchedules config) (schedule_id sch) then [] else [u]
       | _, _ => []
       end)
    oncalls.

(** A list without its repetitions: of each element the first occurrence
    stays. *)
Fixpoint firstOccurrences (l : list string) : list string :=
  match l with
  | [] => []
  | x :: xs => x :: filter (fun y => negb (y =? x)) (firstOccurrences xs)
  end.

(** The names users.info gives for a list of members, when [info] is what
    Slack answers for each: a member is left out when the answer is not ok
    or has no user. *)
Definition namesOf (info : string -> UserInfoBody) (users : list string)
  : list string :=
  flat_map
    (fun userId =>
       match info_ok (info userId), info_user (info userId) with
       | true, Some u => [info_real_name u]
       | _, _ => []
       end)
    users.

(** [response.data.users || []]. *)
Definition groupUsers (response : GroupUsersBody) : list string :=
  match group_users response with
  | Some l => l
  | None => []
  end.


Definition is_group_listing (e : Event) : bool :=
  match e with
  | Http (UsergroupsUsersList _ _ _) => true
  | _ => false
  end.

Definition is_user_info (e : Event) : bool :=
  match e with
  | Http (UsersInfo _ _) => true
  | _ => false
  end.

(** The display name the last of the users [us] with the id [k] has. *)
Fixpoint lastSummary (k : string) (us : list PdUser) : option string :=
  match us with
  | [] => None
  | u :: rest =>
      match lastSummary k rest with
      | Some v => Some v
      | None => if user_id u =? k then Some (summary u) else None
      end
  end.

(** The two requests that change something at Slack. *)
Definition is_write (e : Event) : bool :=
  is_post_message e || is_update e.

Definition is_users_list (e : Event) : bool :=
  match e with
  | Http (UsersList _) => true
  | _ => false
  end.

(** * Properties *)

Unset Implicit Arguments.

(** ** Strings and the insertion-ordered map *)

Lemma includes_In (xs : list string) (x : string) :
  includes xs x = true <-> In x xs.
Proof.
  unfold includes. rewrite existsb_exists. split.
  - intros [y [Hy E]]. apply String.eqb_eq in E. now subst.
  - intros H. exists x. split; [assumption | apply String.eqb_refl].
Qed.

Lemma includes_not_In (xs : list string) (x : string) :
  includes xs x = false <-> ~ In x xs.
Proof.
  rewrite <- includes_In. destruct (includes xs x); split; congruence.
Qed.

Module JsMapFacts.
Import JsMap.

Lemma get_set_same k v m : get k (set k v m) = Some v.
Proof.
  induction m as [| [k' v'] m IH]; simpl.
  - now rewrite String.eqb_refl.
  - destruct (k' =? k) eqn:E; simpl; rewrite E; auto.
Qed.

Lemma get_set_other k k' v m : k <> k' -> get k' (set k v m) = get k' m.
Proof.
  intros Hne. induction m as [| [k0 v0] m IH]; simpl.
  - destruct (k =? k') eqn:E; [apply String.eqb_eq in E; contradiction | reflexivity].
  - destruct (k0 =? k) eqn:E; simpl.
    + apply String.eqb_eq in E. subst k0.
      destruct (k =? k') eqn:E'; [apply String.eqb_eq in E'; contradiction | reflexivity].
    + now rewrite IH.
Qed.

Lemma keys_set_present k v m : In k (keys m) -> keys (set k v m) = keys m.
Proof.
  unfold keys. induction m as [| [k' v'] m IH]; simpl; [tauto |].
  intros H. destruct (k' =? k) eqn:E; simpl; [reflexivity |].
  destruct H as [H | H].
  - subst. now rewrite String.eqb_refl in E.
  - now rewrite IH.
Qed.

Lemma keys_set_absent k v m : ~ In k (keys m) -> keys (set k v m) = keys m ++ [k].
Proof.
  unfold keys. induction m as [| [k' v'] m IH]; simpl; [reflexivity |].
  intros H. destruct (k' =? k) eqn:E; simpl.
  - apply String.eqb_eq in E. tauto.
  - rewrite IH; tauto.
Qed.

Lemma In_keys_set k k' v m : In k' (keys (set k v m)) <-> k' = k \/ In k' (keys m).
Proof.
  destruct (in_dec string_dec k (keys m)) as [H | H].
  - rewrite keys_set_present by assumption. split; [tauto |].
    intros [-> | ?]; assumption.
  - rewrite keys_set_absent by assumption. rewrite in_app_iff. simpl.
    split; intros [?|?]; try tauto; intuition congruence.
Qed.

Lemma NoDup_keys_set k v m : NoDup (keys m) -> NoDup (keys (set k v m)).
Proof.
  intros H. destruct (in_dec string_dec k (keys m)) as [Hin | Hin].
  - now rewrite keys_set_present.
  - rewrite keys_set_absent by assumption.
    apply NoDup_app; [assumption | | ].
    + constructor; [simpl; tauto | constructor].
    + intros x Hx [<- | []]. contradiction.
Qed.

Lemma In_set k v m e :
  In e (set k v m) -> e = (k, v) \/ In e m.
Proof.
  induction m as [| [k' v'] m IH]; simpl.
  - intros [H | []]. now left.
  - destruct (k' =? k) eqn:E; simpl.
    + apply String.eqb_eq in E. subst. intros [H | H]; auto.
    + intros [H | H]; [tauto | apply IH in H; tauto].
Qed.

Lemma get_In k v m : get k m = Some v -> In (k, v) m.
Proof.
  induction m as [| [k' v'] m IH]; simpl; [discriminate |].
  destruct (k' =? k) eqn:E.
  - apply String.eqb_eq in E. intros [= ->]. subst. now left.
  - intros H. right. now apply IH.
Qed.

Lemma In_keys_get k m : In k (keys m) -> exists v, get k m = Some v.
Proof.
  induction m as [| [k' v'] m IH]; simpl; [tauto |].
  intros H. destruct (k' =? k) eqn:E; [eauto |].
  destruct H as [H | H]; [subst; now rewrite String.eqb_refl in E | auto].
Qed.

(** A map all of whose keys are [k] has at most one entry. *)
Lemma single_key k m :
  NoDup (keys m) -> (forall k', In k' (keys m) -> k' = k) ->
  forall v, get k m = Some v -> values m = [v].
Proof.
  destruct m as [| [k0 v0] [| [k1 v1] m]]; simpl; intros ND Hall v.
  - discriminate.
  - rewrite (Hall k0) by tauto. rewrite String.eqb_refl. now intros [= ->].
  - exfalso. inversion ND as [| ? ? Hnin _]; subst. apply Hnin. simpl. left.
    rewrite (Hall k0), (Hall k1); tauto.
Qed.

End JsMapFacts.

(** ** The forEach of getOnCallUsers *)

Section OnCallFacts.

Variable config : Config.

Lemma addOnCall_usable m r u :
  usable config r u ->
  addOnCall config m r = JsMap.set (user_id u) (summary u) m.
Proof.
  intros [Hu [sch [Hs Hnot]]]. unfold addOnCall. rewrite Hu, Hs.
  apply includes_not_In in Hnot. now rewrite Hnot.
Qed.

Lemma addOnCall_excluded m r :
  excluded config r -> addOnCall config m r = m.
Proof.
  intros [sch [Hs Hin]]. unfold addOnCall. rewrite Hs.
  apply includes_In in Hin. rewrite Hin. now destruct (user r).
Qed.

Lemma addOnCall_cases m r :
  (exists u, usable config r u) \/
  ((forall u, ~ usable config r u) /\ addOnCall config m r = m).
Proof.
  unfold addOnCall, usable.
  destruct (user r) as [u |]; [| right; split; [intros u [[=] _] | reflexivity]].
  destruct (schedule r) as [sch |];
    [| right; split; [intros u' [_ [s [[=] _]]] | reflexivity]].
  destruct (includes (skipSchedules config) (schedule_id sch)) eqn:E.
  - right. split; [| reflexivity].
    intros u' [_ [s [[= <-] Hnot]]]. apply includes_In in E. contradiction.
  - left. exists u. split; [reflexivity |]. exists sch. split; [reflexivity |].
    now apply includes_not_In.
Qed.

Lemma fold_keys_NoDup l : forall m,
  NoDup (JsMap.keys m) -> NoDup (JsMap.keys (fold_left (addOnCall config) l m)).
Proof.
  induction l as [| r l IH]; intros m ND; simpl; [assumption |].
  apply IH. destruct (addOnCall_cases m r) as [[u Hu] | [_ ->]]; [| assumption].
  rewrite (addOnCall_usable m _ _ Hu). now apply JsMapFacts.NoDup_keys_set.
Qed.

Lemma fold_keys_grow l : forall m k,
  In k (JsMap.keys m) -> In k (JsMap.keys (fold_left (addOnCall config) l m)).
Proof.
  induction l as [| r l IH]; intros m k Hk; simpl; [assumption |].
  apply IH. destruct (addOnCall_cases m r) as [[u Hu] | [_ ->]]; [| assumption].
  rewrite (addOnCall_usable m _ _ Hu). apply JsMapFacts.In_keys_set. now right.
Qed.

Lemma fold_key_in l : forall m r u,
  In r l -> usable config r u ->
  In (user_id u) (JsMap.keys (fold_left (addOnCall config) l m)).
Proof.
  induction l as [| r0 l IH]; intros m r u Hin Hu; simpl; [destruct Hin |].
  destruct Hin as [-> | Hin]; [| eauto].
  apply fold_keys_grow. rewrite (addOnCall_usable m _ _ Hu).
  apply JsMapFacts.In_keys_set. now left.
Qed.

Lemma fold_entry_origin l : forall m e,
  In e (fold_left (addOnCall config) l m) ->
  In e m \/
  exists r u, In r l /\ usable config r u /\ e = (user_id u, summary u).
Proof.
  induction l as [| r l IH]; intros m e He; simpl in *; [now left |].
  apply IH in He. destruct He as [He | [r' [u [Hin [Hu ->]]]]].
  - destruct (addOnCall_cases m r) as [[u Hu] | [_ E]].
    + rewrite (addOnCall_usable m _ _ Hu) in He. apply JsMapFacts.In_set in He.
      destruct He as [-> | He]; [| now left].
      right. exists r, u. auto.
    + rewrite E in He. now left.
  - right. exists r', u. auto.
Qed.

Lemma fold_get_untouched k l : forall m,
  (forall r u, In r l -> usable config r u -> user_id u <> k) ->
  JsMap.get k (fold_left (addOnCall config) l m) = JsMap.get k m.
Proof.
  induction l as [| r l IH]; intros m Hno; simpl; [reflexivity |].
  rewrite IH by (intros r' u' Hin; apply Hno; now right).
  destruct (addOnCall_cases m r) as [[u Hu] | [_ ->]]; [| reflexivity].
  rewrite (addOnCall_usable m _ _ Hu).
  apply JsMapFacts.get_set_other. apply (Hno r u); [now left | assumption].
Qed.

(** With no record that counts the map stays as it was. *)
Lemma fold_no_usable l : forall m,
  (forall r u, In r l -> ~ usable config r u) ->
  fold_left (addOnCall config) l m = m.
Proof.
  induction l as [| r l IH]; intros m Hno; simpl; [reflexivity |].
  destruct (addOnCall_cases m r) as [[u Hu] | [_ ->]].
  - exfalso. apply (Hno r u); [now left | assumption].
  - apply IH. intros r' u' Hin. apply Hno. now right.
Qed.

End OnCallFacts.

(** ** Computations that cannot throw, computations that stay silent *)

Section MonadFacts.

Context {World : Type}.
Variable axios : forall r : Request, World -> Reply (ResponseData r) * World.

Local Abbreviation M := (M (World := World)).
Local Abbreviation Run := (Run (World := World)).

Lemma result_after {A} evs (r : Run A) : result (after evs r) = result r.
Proof. now destruct r. Qed.

Lemma events_after {A} evs (r : Run A) :
  events (after evs r) = evs ++ events r.
Proof. now destruct r. Qed.

Lemma after_after {A} evs evs' (r : Run A) :
  after evs (after evs' r) = after (evs ++ evs') r.
Proof. destruct r. simpl. now rewrite app_assoc. Qed.

(** The equations runs are computed with. *)
Lemma bind_emit {B} e (k : unit -> M B) w :
  bind (emit e) k w = after [e] (k tt w).
Proof. reflexivity. Qed.

Lemma bind_normal {A B} (c : M A) (k : A -> M B) w a :
  result (c w) = Normal a ->
  bind c k w = after (events (c w)) (k a (world_after (c w))).
Proof. unfold bind. destruct (c w) as [res w' evs]. simpl. now intros ->. Qed.

Lemma bind_throw {A B} (c : M A) (k : A -> M B) w e :
  result (c w) = Throw e ->
  bind c k w = mkRun (Throw e) (world_after (c w)) (events (c w)).
Proof. unfold bind. destruct (c w) as [res w' evs]. simpl. now intros ->. Qed.

Lemma bind_await_resolved {B} r (k : ResponseData r -> M B) w w' data :
  axios r w = (Resolved data, w') ->
  bind (await axios r) k w = after [Http r] (k data w').
Proof. intros E. unfold bind, await. now rewrite E. Qed.

Lemma bind_await_rejected {B} r (k : ResponseData r -> M B) w w' msg :
  axios r w = (Rejected msg, w') ->
  bind (await axios r) k w = mkRun (Throw (mkError msg)) w' [Http r].
Proof. intros E. unfold bind, await. now rewrite E. Qed.

Lemma try_catch_of {A} (body : M A) handler w r :
  body w = r ->
  try_catch body handler w =
    match r with
    | mkRun (Normal a) w' evs => mkRun (Normal a) w' evs
    | mkRun (Throw e) w' evs => after evs (handler e w')
    end.
Proof. intros <-. reflexivity. Qed.

Lemma try_catch_normal {A} (body : M A) handler w a :
  result (body w) = Normal a -> try_catch body handler w = body w.
Proof.
  unfold try_catch. destruct (body w) as [res w' evs]. simpl. now intros ->.
Qed.

Lemma try_catch_throw {A} (body : M A) handler w e :
  result (body w) = Throw e ->
  try_catch body handler w =
    after (events (body w)) (handler e (world_after (body w))).
Proof.
  unfold try_catch. destruct (body w) as [res w' evs]. simpl. now intros ->.
Qed.

Lemma succeeds_ret {A} (a : A) : succeeds (ret (World := World) a).
Proof. intros w. now exists a. Qed.

Lemma succeeds_emit e : succeeds (emit (World := World) e).
Proof. intros w. now exists tt. Qed.

Lemma succeeds_bind {A B} (c : M A) (k : A -> M B) :
  succeeds c -> (forall a, succeeds (k a)) -> succeeds (bind c k).
Proof.
  intros Hc Hk w. destruct (Hc w) as [a Ha].
  rewrite bind_normal with (1 := Ha), result_after. apply Hk.
Qed.

Lemma succeeds_try_catch {A} (body : M A) handler :
  (forall e, succeeds (handler e)) -> succeeds (try_catch body handler).
Proof.
  intros Hh w. destruct (result (body w)) as [a | e] eqn:E.
  - rewrite try_catch_normal with (1 := E). now exists a.
  - rewrite try_catch_throw with (1 := E), result_after. apply Hh.
Qed.

Lemma quiet_ret P {A} (a : A) : quiet P (ret (World := World) a).
Proof. intros w. reflexivity. Qed.

Lemma quiet_throw P {A} e : quiet P (throw (World := World) (A := A) e).
Proof. intros w. reflexivity. Qed.

Lemma quiet_emit (P : Event -> bool) e :
  P e = false -> quiet P (emit (World := World) e).
Proof. intros H w. simpl. now rewrite H. Qed.

Lemma quiet_await (P : Event -> bool) r :
  P (Http r) = false -> quiet P (await axios r).
Proof.
  intros H w. unfold await.
  destruct (axios r w) as [[msg | data] w']; simpl; now rewrite H.
Qed.

Lemma quiet_bind P {A B} (c : M A) (k : A -> M B) :
  quiet P c -> (forall a, quiet P (k a)) -> quiet P (bind c k).
Proof.
  intros Hc Hk w. destruct (result (c w)) as [a | e] eqn:E.
  - now rewrite bind_normal with (1 := E), events_after, filter_app, Hc, Hk.
  - rewrite bind_throw with (1 := E). apply Hc.
Qed.

Lemma quiet_try_catch P {A} (body : M A) handler :
  quiet P body -> (forall e, quiet P (handler e)) ->
  quiet P (try_catch body handler).
Proof.
  intros Hb Hh w. destruct (result (body w)) as [a | e] eqn:E.
  - rewrite try_catch_normal with (1 := E). apply Hb.
  - now rewrite try_catch_throw with (1 := E), events_after, filter_app, Hb, Hh.
Qed.

End MonadFacts.

Create HintDb run.
#[local] Hint Resolve succeeds_ret succeeds_emit succeeds_bind succeeds_try_catch
  quiet_ret quiet_throw quiet_emit quiet_await quiet_bind quiet_try_catch
  : run.

(** ** Running the five functions *)

(** Two runs written differently: bring both to the record and the event
    lists to one shape. *)
Ltac same_run :=
  rewrite ?after_after;
  unfold throw, ret, emit;
  cbn [after result world_after events message app];
  repeat first [rewrite <- app_assoc | rewrite app_nil_r | progress cbn [app]];
  reflexivity.

Section Runs.

Context {World : Type}.
Variable axios : forall r : Request, World -> Reply (ResponseData r) * World.
Variable config : Config.

(** What getOnCallUsers does when PagerDuty answers. *)
Lemma getOnCallUsers_resolved w w' body :
  axios (oncallsRequest config) w = (Resolved body, w') ->
  getOnCallUsers axios config w =
    let users := JsMap.values (uniqueUsersOf config (payload body)) in
    mkRun (Normal users) w'
      [Console Stdout Blue "Fetching on-call users from PagerDuty...";
       Http (oncallsRequest config);
       Console Stdout Green ("Found on-call users: " ++ join ", " users)].
Proof.
  intros H. unfold getOnCallUsers, try_catch, bind, console_log, emit, await.
  cbv beta. simpl result. simpl world_after. rewrite H. reflexivity.
Qed.

(** What it does when the call fails. *)
Lemma getOnCallUsers_rejected w w' msg :
  axios (oncallsRequest config) w = (Rejected msg, w') ->
  getOnCallUsers axios config w =
    mkRun (Throw (mkError ("Failed to get on-call users: " ++ msg))) w'
      [Console Stdout Blue "Fetching on-call users from PagerDuty...";
       Http (oncallsRequest config)].
Proof.
  intros H. unfold getOnCallUsers, try_catch, bind, console_log, emit, await.
  cbv beta. simpl result. simpl world_after. rewrite H. reflexivity.
Qed.

(** What getSlackUserIdByName does in each of its three cases. *)
Lemma getSlackUserIdByName_ok name w w' body :
  axios (usersListRequest config) w = (Resolved body, w') ->
  list_ok body = true ->
  getSlackUserIdByName axios config name w =
    mkRun (Normal (match find (nameMatches name) (list_members body) with
                   | Some u => Some (member_id u)
                   | None => None
                   end))
      w' [Http (usersListRequest config)].
Proof.
  intros H Hok. unfold getSlackUserIdByName, try_catch, bind, await.
  cbv beta. rewrite H. simpl. rewrite Hok. reflexivity.
Qed.

Lemma getSlackUserIdByName_not_ok name w w' body :
  axios (usersListRequest config) w = (Resolved body, w') ->
  list_ok body = false ->
  getSlackUserIdByName axios config name w =
    mkRun (Normal None) w'
      [Http (usersListRequest config);
       Console Stderr Red
         ("Failed to get Slack ID for " ++ name ++ ": "
          ++ "Failed to list users: " ++ render (list_error body))].
Proof.
  intros H Hok. unfold getSlackUserIdByName, try_catch, bind, await.
  cbv beta. rewrite H. simpl. rewrite Hok. reflexivity.
Qed.

Lemma getSlackUserIdByName_rejected name w w' msg :
  axios (usersListRequest config) w = (Rejected msg, w') ->
  getSlackUserIdByName axios config name w =
    mkRun (Normal None) w'
      [Http (usersListRequest config);
       Console Stderr Red ("Failed to get Slack ID for " ++ name ++ ": " ++ msg)].
Proof.
  intros H. unfold getSlackUserIdByName, try_catch, bind, await.
  cbv beta. rewrite H. reflexivity.
Qed.

(** The two helpers of updateGroupMembers catch whatever goes wrong in
    them, and so does the orchestrator. *)
Lemma getCurrentGroupMembers_succeeds :
  succeeds (getCurrentGroupMembers axios config).
Proof.
  unfold getCurrentGroupMembers, console_error. auto with run.
Qed.

Lemma getSlackUserIdByName_succeeds name :
  succeeds (getSlackUserIdByName axios config name).
Proof.
  unfold getSlackUserIdByName, console_error. auto with run.
Qed.

Lemma lookupSlackIds_succeeds users : forall slackUserIds,
  succeeds (lookupSlackIds axios config users slackUserIds).
Proof.
  induction users as [| u rest IH]; intros acc; simpl; [auto with run |].
  apply succeeds_bind; [apply getSlackUserIdByName_succeeds |].
  intros [i |]; [destruct (truthy i) |]; unfold console_log; auto with run.
Qed.

Lemma updateSlackGroup_succeeds : succeeds (updateSlackGroup axios config).
Proof.
  unfold updateSlackGroup, console_error. auto with run.
Qed.

(** Reading the group and looking names up sends neither of the two
    writing requests, whatever happens. *)
Section Readers.

Variable P : Event -> bool.
Hypothesis P_console : forall s c text, P (Console s c text) = false.
Hypothesis P_group : P (Http (groupUsersRequest config)) = false.
Hypothesis P_info : forall u, P (Http (userInfoRequest config u)) = false.
Hypothesis P_list : P (Http (usersListRequest config)) = false.

Lemma collectUserNames_quiet users : forall userNames,
  quiet P (collectUserNames axios config users userNames).
Proof.
  induction users as [| u rest IH]; intros acc; simpl; [auto with run |].
  apply quiet_bind; [apply (quiet_await axios P (userInfoRequest config u)), P_info |].
  intros resp. destruct (info_ok resp), (info_user resp); apply IH.
Qed.


Lemma getSlackUserIdByName_quiet name :
  quiet P (getSlackUserIdByName axios config name).
Proof.
  unfold getSlackUserIdByName, console_error.
  apply quiet_try_catch; [| auto with run].
  apply quiet_bind; [apply (quiet_await axios P (usersListRequest config)), P_list |]. intros resp.
  apply quiet_bind; [destruct (negb (list_ok resp)); auto with run |].
  auto with run.
Qed.

Lemma lookupSlackIds_quiet users : forall slackUserIds,
  quiet P (lookupSlackIds axios config users slackUserIds).
Proof.
  induction users as [| u rest IH]; intros acc; simpl; [auto with run |].
  apply quiet_bind; [apply getSlackUserIdByName_quiet |].
  intros [i |]; [destruct (truthy i) |]; unfold console_log; auto with run.
Qed.

End Readers.

(** The loop of updateGroupMembers returns the identifiers of the names
    that resolve, in the order of the names. *)
Lemma lookupSlackIds_result users : forall slackUserIds w,
  result (lookupSlackIds axios config users slackUserIds w) =
    Normal (slackUserIds ++ resolvedIds axios config users w).
Proof.
  induction users as [| u rest IH]; intros acc w; simpl.
  - now rewrite app_nil_r.
  - destruct (getSlackUserIdByName_succeeds u w) as [slackId E].
    rewrite bind_normal with (1 := E), result_after, E.
    destruct slackId as [i |]; [destruct (truthy i) |];
      unfold console_log; rewrite bind_emit, result_after, IH;
      [rewrite <- app_assoc |..]; reflexivity.
Qed.


(** updateGroupMembers, step by step.  [r1] is the first reading of the
    group, [r2] the lookups, and [before] what has happened when the loop
    is over. *)
Lemma updateGroupMembers_run users w :
  let r1 := getCurrentGroupMembers axios config w in
  let r2 := lookupSlackIds axios config users [] (world_after r1) in
  let ids := resolvedIds axios config users (world_after r1) in
  let before :=
    Console Stdout Blue "Current group members:"
    :: events r1
    ++ Console Stdout Blue (or_else (join ", " (value_or [] r1)) "None")
    :: Console Stdout Blue (LF ++ "Looking up Slack IDs for users...")
    :: events r2 in
  updateGroupMembers axios config users w =
    match ids with
    | [] =>
        mkRun (Normal tt) (world_after r2)
          (before ++
           [Console Stdout Yellow
              "No valid Slack user IDs found, skipping update"])
    | _ :: _ =>
        let updating :=
          Console Stdout Blue
            (LF ++ "Updating Slack user group with: " ++ join ", " users) in
        match axios (updateRequest config ids) (world_after r2) with
        | (Rejected msg, w3) =>
            mkRun (Throw (mkError ("Failed to update group members: " ++ msg)))
              w3 (before ++ [updating; Http (updateRequest config ids)])
        | (Resolved _, w3) =>
            let r5 := getCurrentGroupMembers axios config w3 in
            mkRun (Normal tt) (world_after r5)
              (before
               ++ updating
               :: Http (updateRequest config ids)
               :: Console Stdout Blue (LF ++ "New group members:")
               :: events r5
               ++ [Console Stdout Blue
                     (or_else (join ", " (value_or [] r5)) "None");
                   Console Stdout Green
                     "Successfully updated Slack group members"])
        end
    end.
Proof.
  intros r1 r2 ids before.
  destruct (getCurrentGroupMembers_succeeds w) as [cm E1]. fold r1 in E1.
  assert (E2 : result r2 = Normal ids)
    by apply (lookupSlackIds_result users [] (world_after r1)).
  assert (V1 : value_or [] r1 = cm) by (unfold value_or; now rewrite E1).
  subst before. rewrite V1. unfold updateGroupMembers, console_log.
  eapply eq_trans.
  { apply try_catch_of.
    rewrite bind_emit, bind_normal with (1 := E1), !bind_emit.
    fold r1 r2. rewrite bind_normal with (1 := E2). reflexivity. }
  destruct ids as [| i ids'].
  - same_run.
  - rewrite bind_emit.
    destruct (axios (updateRequest config (i :: ids')) (world_after r2))
      as [[msg | data] w3] eqn:E4.
    + rewrite bind_await_rejected with (1 := E4). same_run.
    + rewrite bind_await_resolved with (1 := E4).
      destruct (getCurrentGroupMembers_succeeds w3) as [nm E5].
      rewrite bind_emit, bind_normal with (1 := E5), bind_emit.
      unfold value_or. rewrite E5. same_run.
Qed.

(** updateSlackGroup, step by step. *)
Lemma updateSlackGroup_run w :
  let r1 := getOnCallUsers axios config w in
  updateSlackGroup axios config w =
    match result r1 with
    | Throw e =>
        mkRun (Normal tt) (world_after r1) (starting :: events r1 ++ [failed e])
    | Normal [] =>
        mkRun (Normal tt) (world_after r1)
          (starting :: events r1
           ++ [Console Stdout Yellow "No on-call users found"])
    | Normal (u :: us) =>
        let post := postMessageRequest config (u :: us) in
        match axios post (world_after r1) with
        | (Rejected msg, w2) =>
            mkRun (Normal tt) w2
              (starting :: events r1 ++ [Http post; failed (mkError msg)])
        | (Resolved _, w2) =>
            let r3 := updateGroupMembers axios config (u :: us) w2 in
            mkRun (Normal tt) (world_after r3)
              (starting :: events r1 ++ Http post :: events r3
               ++ [match result r3 with
                   | Normal _ =>
                       Console Stdout Green
                         (check_mark ++ " Slack user group update complete")
                   | Throw e => failed e
                   end])
        end
    end.
Proof.
  intros r1. unfold starting, failed.
  unfold updateSlackGroup, console_log, console_error.
  eapply eq_trans; [apply try_catch_of; rewrite bind_emit; reflexivity |].
  fold r1. destruct (result r1) as [[| u us] | e] eqn:E1.
  - rewrite bind_normal with (1 := E1). same_run.
  - rewrite bind_normal with (1 := E1).
    destruct (axios (postMessageRequest config (u :: us)) (world_after r1))
      as [[msg | data] w2] eqn:E2.
    + rewrite bind_await_rejected with (1 := E2). same_run.
    + rewrite bind_await_resolved with (1 := E2).
      destruct (result (updateGroupMembers axios config (u :: us) w2))
        as [[] | e] eqn:E3.
      * rewrite bind_normal with (1 := E3). same_run.
      * rewrite bind_throw with (1 := E3). same_run.
  - rewrite bind_throw with (1 := E1). same_run.
Qed.

(** What getCurrentGroupMembers does when the listing fails, and what its
    loop does with one member. *)
Lemma getCurrentGroupMembers_rejected w w' msg :
  axios (groupUsersRequest config) w = (Rejected msg, w') ->
  getCurrentGroupMembers axios config w =
    mkRun (Normal []) w'
      [Http (groupUsersRequest config);
       Console Stderr Red ("Failed to get current group members: " ++ msg)].
Proof.
  intros H. unfold getCurrentGroupMembers, console_error.
  eapply eq_trans;
    [apply try_catch_of; rewrite bind_await_rejected with (1 := H);
     reflexivity |].
  reflexivity.
Qed.

Lemma getCurrentGroupMembers_not_ok w w' body :
  axios (groupUsersRequest config) w = (Resolved body, w') ->
  group_ok body = false ->
  getCurrentGroupMembers axios config w =
    mkRun (Normal []) w'
      [Http (groupUsersRequest config);
       Console Stderr Red
         ("Failed to get current group members: "
          ++ "Failed to get group members: " ++ render (group_error body))].
Proof.
  intros H Hok. unfold getCurrentGroupMembers, console_error.
  eapply eq_trans;
    [apply try_catch_of; rewrite bind_await_resolved with (1 := H);
     rewrite Hok; reflexivity |].
  reflexivity.
Qed.

Lemma collectUserNames_skip userId rest userNames w w' body :
  axios (userInfoRequest config userId) w = (Resolved body, w') ->
  info_ok body = false \/ info_user body = None ->
  collectUserNames axios config (userId :: rest) userNames w =
    after [Http (userInfoRequest config userId)]
      (collectUserNames axios config rest userNames w').
Proof.
  intros H Hskip. cbn [collectUserNames].
  rewrite bind_await_resolved with (1 := H).
  destruct Hskip as [-> | ->]; [reflexivity |].
  now destruct (info_ok body).
Qed.

Lemma getOnCallUsers_quiet (P : Event -> bool) :
  (forall s c text, P (Console s c text) = false) ->
  P (Http (oncallsRequest config)) = false ->
  quiet P (getOnCallUsers axios config).
Proof.
  intros P_console P_oncalls. unfold getOnCallUsers, console_log.
  apply quiet_try_catch; [| auto with run].
  apply quiet_bind; [auto with run |]. intros _.
  apply quiet_bind;
    [apply (quiet_await axios P (oncallsRequest config)), P_oncalls |].
  intros resp. auto with run.
Qed.

End Runs.

(** ** The users that count, and the order of the map *)

Lemma In_countingUsers config l u :
  In u (countingUsers config l) <-> exists r, In r l /\ usable config r u.
Proof.
  unfold countingUsers. rewrite in_flat_map. split.
  - intros [r [Hr Hu]]. exists r. split; [exact Hr |]. unfold usable.
    destruct (user r) as [u' |]; [| destruct Hu].
    destruct (schedule r) as [sch |]; [| destruct Hu].
    destruct (includes (skipSchedules config) (schedule_id sch)) eqn:E;
      [destruct Hu |].
    destruct Hu as [-> | []]. split; [reflexivity |].
    exists sch. split; [reflexivity | now apply includes_not_In].
  - intros [r [Hr [Hu [sch [Hs Hnot]]]]]. exists r. split; [exact Hr |].
    rewrite Hu, Hs. apply includes_not_In in Hnot. rewrite Hnot. now left.
Qed.

(** The forEach is a fold of [JsMap.set] over the users that count. *)
Lemma fold_counting config l : forall m,
  fold_left (addOnCall config) l m =
    fold_left (fun m u => JsMap.set (user_id u) (summary u) m)
      (countingUsers config l) m.
Proof.
  induction l as [| r l IH]; intros m; [reflexivity |].
  cbn [fold_left countingUsers flat_map]. rewrite fold_left_app, IH.
  f_equal. unfold addOnCall.
  destruct (user r) as [u |]; [| reflexivity].
  destruct (schedule r) as [sch |]; [| reflexivity].
  now destruct (includes (skipSchedules config) (schedule_id sch)).
Qed.

Lemma filter_absorb {A} (P Q : A -> bool) l :
  (forall y, P y = true -> Q y = true) ->
  filter P (filter Q l) = filter P l.
Proof.
  intros H. induction l as [| y l IH]; [reflexivity |]. cbn [filter].
  destruct (Q y) eqn:EQ; cbn [filter]; rewrite IH; [reflexivity |].
  destruct (P y) eqn:EP; [| reflexivity].
  apply H in EP. congruence.
Qed.

Lemma filter_both {A} (P Q R : A -> bool) l :
  (forall y, R y = P y && Q y) ->
  filter R l = filter P (filter Q l).
Proof.
  intros H. induction l as [| y l IH]; [reflexivity |]. cbn [filter].
  rewrite H. destruct (Q y); cbn [filter]; rewrite IH.
  - now rewrite andb_true_r.
  - now rewrite andb_false_r.
Qed.

Lemma filter_all {A} (P : A -> bool) l :
  (forall y, P y = true) -> filter P l = l.
Proof.
  intros H. induction l as [| y l IH]; [reflexivity |].
  cbn [filter]. now rewrite H, IH.
Qed.

(** Keys enter the map when they are first set, behind those it has. *)
Lemma keys_fold_set us : forall m,
  JsMap.keys (fold_left (fun m u => JsMap.set (user_id u) (summary u) m) us m)
  = JsMap.keys m
    ++ filter (fun k => negb (includes (JsMap.keys m) k))
         (firstOccurrences (map user_id us)).
Proof.
  induction us as [| u us IH]; intros m.
  - cbn. now rewrite app_nil_r.
  - cbn [fold_left map firstOccurrences]. rewrite IH.
    destruct (in_dec string_dec (user_id u) (JsMap.keys m)) as [Hin | Hnin].
    + rewrite JsMapFacts.keys_set_present by exact Hin. f_equal.
      cbn [filter]. apply includes_In in Hin. rewrite Hin. cbn [negb].
      symmetry. apply filter_absorb.
      intros y Hy. apply negb_true_iff in Hy. apply negb_true_iff.
      apply String.eqb_neq. intros ->. congruence.
    + rewrite JsMapFacts.keys_set_absent by exact Hnin.
      rewrite <- app_assoc. f_equal. cbn [filter app].
      apply includes_not_In in Hnin. rewrite Hnin. cbn [negb]. f_equal.
      apply filter_both. intros y. unfold includes.
      rewrite existsb_app. cbn [existsb]. rewrite orb_false_r, negb_orb.
      reflexivity.
Qed.

(** The values of a map stand where their keys stand. *)
Lemma nth_values_get m :
  NoDup (JsMap.keys m) ->
  forall n k,
    nth_error (JsMap.keys m) n = Some k ->
    exists v, nth_error (JsMap.values m) n = Some v /\ JsMap.get k m = Some v.
Proof.
  induction m as [| [k0 v0] m IH]; intros ND n k Hn.
  - destruct n; discriminate Hn.
  - inversion ND as [| ? ? Hnotin ND']; subst. destruct n as [| n].
    + injection Hn as <-. exists v0. cbn. now rewrite String.eqb_refl.
    + cbn [JsMap.keys map nth_error] in Hn.
      destruct (IH ND' n k Hn) as [v [Hv Hget]].
      exists v. split; [exact Hv |]. cbn [JsMap.get].
      destruct (k0 =? k) eqn:E; [| exact Hget].
      apply String.eqb_eq in E. subst k0. exfalso. apply Hnotin.
      apply nth_error_In in Hn. exact Hn.
Qed.

(** The keys of the map of getOnCallUsers. *)
Lemma uniqueUsers_keys config l :
  JsMap.keys (uniqueUsersOf config l)
  = firstOccurrences (map user_id (countingUsers config l)).
Proof.
  unfold uniqueUsersOf. rewrite fold_counting, keys_fold_set.
  cbn [JsMap.keys JsMap.empty map app]. now apply filter_all.
Qed.

(** * The on-call resolver *)

Example healthy_on_call_users :
  getOnCallUsers (scripted Demo.healthy) Demo.config tt =
    mkRun (Normal ["Alice"; "Bob"]) tt
      [Console Stdout Blue "Fetching on-call users from PagerDuty...";
       Http (oncallsRequest Demo.config);
       Console Stdout Green "Found on-call users: Alice, Bob"].
Proof. reflexivity. Qed.

(** C1.  A record whose schedule is in the exclusion set contributes nothing:
    getOnCallUsers returns what it returns on the payload without that
    record.  The filter is applied to each record before the map is built,
    so every user named by a record that counts, one also named by the
    excluded record included, is in the result under a name that a counting
    record gives. *)
Theorem excluded_record_contributes_nothing
  {World : Type}
  (axios : forall r : Request, World -> Reply (ResponseData r) * World)
  (config : Config) (w w' : World) (before after : list OnCall) (oncall : OnCall) :
  excluded config oncall ->
  axios (oncallsRequest config) w
    = (Resolved {| oncalls := Some (before ++ oncall :: after) |}, w') ->
  let users := JsMap.values (uniqueUsersOf config (before ++ after)) in
  result (getOnCallUsers axios config w) = Normal users /\
  forall r u,
    In r (before ++ oncall :: after) -> usable config r u ->
    exists r' u',
      In r' (before ++ after) /\ usable config r' u' /\
      user_id u' = user_id u /\ In (summary u') users.
Proof.
  intros Hex Hreply users. split.
  - rewrite getOnCallUsers_resolved with (1 := Hreply). cbn [result payload oncalls].
    subst users. unfold uniqueUsersOf.
    rewrite !fold_left_app. cbn [fold_left].
    now rewrite (addOnCall_excluded config _ _ Hex).
  - intros r u Hin Hu.
    assert (Hin' : In r (before ++ after)).
    { apply in_app_or in Hin. apply in_or_app.
      destruct Hin as [H | [<- | H]]; [now left | | now right].
      exfalso. destruct Hex as [sch [Hs Hskip]].
      destruct Hu as [_ [sch' [Hs' Hnot]]]. congruence. }
    pose proof (fold_key_in config _ JsMap.empty _ _ Hin' Hu) as Hkey.
    apply JsMapFacts.In_keys_get in Hkey. destruct Hkey as [v Hv].
    apply JsMapFacts.get_In in Hv.
    destruct (fold_entry_origin config _ _ _ Hv) as [[] | [r' [u' [Hr' [Hu' E]]]]].
    injection E as Ek Ev. subst v.
    exists r', u'. split; [exact Hr' |]. split; [exact Hu' |].
    split; [now symmetry |].
    subst users. unfold JsMap.values, uniqueUsersOf.
    change (summary u') with (snd (user_id u, summary u')).
    apply in_map. exact Hv.
Qed.

(** The scenario of the specification: Alice on S1, which is excluded, and
    on S2, which is not. *)
Lemma excluded_record_contributes_nothing_witness :
  excluded Demo.config (Demo.oncall "U1" "Alice" "S1") /\
  result (getOnCallUsers (scripted Demo.alice_twice) Demo.config tt)
    = Normal ["Alice"].
Proof.
  assert (Hex : excluded Demo.config (Demo.oncall "U1" "Alice" "S1")).
  { exists {| schedule_id := "S1" |}. split; [reflexivity | simpl; auto]. }
  split; [exact Hex |].
  exact (proj1 (excluded_record_contributes_nothing
                  (scripted Demo.alice_twice) Demo.config tt tt
                  [] [Demo.oncall "U1" "Alice" "S2"]
                  (Demo.oncall "U1" "Alice" "S1") Hex eq_refl)).
Defined.

(** C2.  Of the records that count and name one user, one entry is
    returned.  The list getOnCallUsers returns has one place for each id
    among the users that count, in the order in which the ids first occur;
    the id of the user stands once among them, and in its place the list
    has the display name of the last record that counts and names the
    user.  When every record that counts names that user, the list
    returned is that one name.  The map built on the way holds the id once,
    with that name. *)
Theorem same_user_one_entry_last_name
  {World : Type}
  (axios : forall r : Request, World -> Reply (ResponseData r) * World)
  (config : Config) (w w' : World) (pre post : list OnCall) (r : OnCall)
  (u : PdUser) :
  axios (oncallsRequest config) w
    = (Resolved {| oncalls := Some (pre ++ r :: post) |}, w') ->
  usable config r u ->
  (forall r' u', In r' post -> usable config r' u' -> user_id u' <> user_id u) ->
  let uniqueUsers := uniqueUsersOf config (pre ++ r :: post) in
  let ids :=
    firstOccurrences (map user_id (countingUsers config (pre ++ r :: post))) in
  exists users,
    result (getOnCallUsers axios config w) = Normal users /\
    length users = length ids /\
    count_occ string_dec ids (user_id u) = 1 /\
    (exists n, nth_error ids n = Some (user_id u)) /\
    (forall n,
       nth_error ids n = Some (user_id u) ->
       nth_error users n = Some (summary u)) /\
    ((forall r' u', In r' pre -> usable config r' u' -> user_id u' = user_id u) ->
     (forall r' u', In r' post -> ~ usable config r' u') ->
     users = [summary u]) /\
    users = JsMap.values uniqueUsers /\
    count_occ string_dec (JsMap.keys uniqueUsers) (user_id u) = 1 /\
    JsMap.get (user_id u) uniqueUsers = Some (summary u).
Proof.
  intros Hreply Hu Hlast uniqueUsers ids.
  assert (Hrun : result (getOnCallUsers axios config w)
                 = Normal (JsMap.values uniqueUsers)).
  { rewrite getOnCallUsers_resolved with (1 := Hreply). reflexivity. }
  assert (Hids : JsMap.keys uniqueUsers = ids) by apply uniqueUsers_keys.
  assert (ND : NoDup (JsMap.keys uniqueUsers)).
  { apply fold_keys_NoDup. constructor. }
  assert (Hkey : In (user_id u) (JsMap.keys uniqueUsers)).
  { apply (fold_key_in config _ _ r u); [| exact Hu].
    apply in_or_app. right. now left. }
  assert (Hget : JsMap.get (user_id u) uniqueUsers = Some (summary u)).
  { subst uniqueUsers. unfold uniqueUsersOf.
    rewrite fold_left_app. cbn [fold_left].
    rewrite (fold_get_untouched config (user_id u) post) by exact Hlast.
    rewrite (addOnCall_usable config _ r u Hu).
    apply JsMapFacts.get_set_same. }
  assert (Hcount : count_occ string_dec (JsMap.keys uniqueUsers) (user_id u) = 1)
    by now apply NoDup_count_occ'.
  exists (JsMap.values uniqueUsers).
  split; [exact Hrun |].
  split; [rewrite <- Hids; unfold JsMap.values, JsMap.keys;
          now rewrite !length_map |].
  split; [now rewrite <- Hids |].
  split; [rewrite <- Hids; now apply In_nth_error |].
  split.
  { intros n Hn. rewrite <- Hids in Hn.
    destruct (nth_values_get uniqueUsers ND n (user_id u) Hn) as [v [Hv Hg]].
    rewrite Hv. congruence. }
  split; [| split; [reflexivity | split; [exact Hcount | exact Hget]]].
  intros Hpre Hpost.
  apply (JsMapFacts.single_key (user_id u)); [exact ND | | exact Hget].
  intros k Hk. apply JsMapFacts.In_keys_get in Hk. destruct Hk as [v Hv].
  apply JsMapFacts.get_In in Hv.
  destruct (fold_entry_origin config _ _ _ Hv) as [[] | [r' [u' [Hr' [Hu' E]]]]].
  injection E as -> _.
  apply in_app_or in Hr'. destruct Hr' as [Hr' | [<- | Hr']].
  - exact (Hpre r' u' Hr' Hu').
  - destruct Hu as [Hu _], Hu' as [Hu' _]. congruence.
  - destruct (Hpost r' u' Hr' Hu').
Qed.

(** Bob, then U1 under two names: two names are returned, and in the
    place of U1 stands the later of its two. *)
Lemma same_user_one_entry_last_name_witness :
  usable Demo.config (Demo.oncall "U1" "Alice B." "S4")
    {| user_id := "U1"; summary := "Alice B." |} /\
  exists users,
    result (getOnCallUsers (scripted Demo.bob_and_alice_renamed) Demo.config tt)
      = Normal users /\
    length users = 2 /\
    nth_error users 1 = Some "Alice B.".
Proof.
  assert (Hu : usable Demo.config (Demo.oncall "U1" "Alice B." "S4")
                 {| user_id := "U1"; summary := "Alice B." |}).
  { split; [reflexivity |]. exists {| schedule_id := "S4" |}.
    split; [reflexivity |]. simpl. intros [H | []]. discriminate H. }
  split; [exact Hu |].
  destruct (same_user_one_entry_last_name
              (scripted Demo.bob_and_alice_renamed) Demo.config tt tt
              [Demo.oncall "U2" "Bob" "S3"; Demo.oncall "U1" "Alice A." "S2"]
              [] (Demo.oncall "U1" "Alice B." "S4")
              {| user_id := "U1"; summary := "Alice B." |}
              eq_refl Hu (fun r' u' (H : In r' []) => match H with end))
    as [users [Hres [Hlen [_ [_ [Hnth _]]]]]].
  exists users. split; [exact Hres |]. split; [exact Hlen |].
  exact (Hnth 1 eq_refl).
Defined.

(** * The directory matcher *)

Lemma nameMatches_matches name m :
  nameMatches name m = true <-> matches name m.
Proof.
  unfold nameMatches, matches.
  rewrite !orb_true_iff, !String.eqb_eq. tauto.
Qed.

Lemma find_first {A} (f : A -> bool) before x after :
  (forall y, In y before -> f y = false) -> f x = true ->
  find f (before ++ x :: after) = Some x.
Proof.
  intros Hno Hx. induction before as [| y before IH]; simpl.
  - now rewrite Hx.
  - rewrite (Hno y) by now left. apply IH. intros z Hz. apply Hno. now right.
Qed.

Lemma find_nobody {A} (f : A -> bool) l :
  (forall y, In y l -> f y = false) -> find f l = None.
Proof.
  intros Hno. induction l as [| y l IH]; simpl; [reflexivity |].
  rewrite (Hno y) by now left. apply IH. intros z Hz. apply Hno. now right.
Qed.

Lemma not_matches_false name m : ~ matches name m -> nameMatches name m = false.
Proof.
  intros H. destruct (nameMatches name m) eqn:E; [| reflexivity].
  apply nameMatches_matches in E. contradiction.
Qed.

(** C3.  When Slack lists the directory, getSlackUserIdByName returns the
    id of the first entry, in the order of the listing, one of whose three
    name fields is the given name, character for character; when no entry
    has the name it returns null. *)
Theorem first_matching_entry_wins
  {World : Type}
  (axios : forall r : Request, World -> Reply (ResponseData r) * World)
  (config : Config) (w w' : World) (name : string) (body : UsersListBody) :
  axios (usersListRequest config) w = (Resolved body, w') ->
  list_ok body = true ->
  (forall before m after,
     list_members body = before ++ m :: after ->
     (forall m', In m' before -> ~ matches name m') ->
     matches name m ->
     result (getSlackUserIdByName axios config name w)
       = Normal (Some (member_id m))) /\
  ((forall m, In m (list_members body) -> ~ matches name m) ->
   result (getSlackUserIdByName axios config name w) = Normal None).
Proof.
  intros Hreply Hok.
  rewrite getSlackUserIdByName_ok with (1 := Hreply) (2 := Hok).
  cbn [result]. split.
  - intros before m after Hsplit Hbefore Hm. rewrite Hsplit.
    rewrite find_first; [reflexivity | | now apply nameMatches_matches].
    intros y Hy. apply not_matches_false. now apply Hbefore.
  - intros Hnone. rewrite find_nobody; [reflexivity |].
    intros y Hy. apply not_matches_false. now apply Hnone.
Qed.

(** Two entries of the directory are called Alice; the first one is taken. *)
Lemma first_matching_entry_wins_witness :
  matches "Alice" (Demo.member "W1" "alice" "Alice") /\
  result (getSlackUserIdByName (scripted Demo.healthy) Demo.config "Alice" tt)
    = Normal (Some "W1").
Proof.
  assert (Hm : matches "Alice" (Demo.member "W1" "alice" "Alice"))
    by (right; left; reflexivity).
  split; [exact Hm |].
  refine (proj1 (first_matching_entry_wins (scripted Demo.healthy) Demo.config
                   tt tt "Alice" _ eq_refl eq_refl)
            [] (Demo.member "W1" "alice" "Alice")
            [Demo.member "W2" "bob" "Bob"; Demo.member "W3" "alice2" "Alice"]
            eq_refl _ Hm).
  intros m' [].
Defined.

(** The comparison is exact: another case, or a blank more, is another
    name. *)
Example matching_is_case_sensitive :
  result (getSlackUserIdByName (scripted Demo.healthy) Demo.config "ALICE" tt)
    = Normal None /\
  result (getSlackUserIdByName (scripted Demo.healthy) Demo.config "Alice " tt)
    = Normal None /\
  result (getSlackUserIdByName (scripted Demo.healthy) Demo.config "bob" tt)
    = Normal (Some "W2").
Proof. repeat split. Qed.

(** C4.  When the directory listing fails, by a rejected call or by an
    answer that is not ok, getSlackUserIdByName throws nothing: it prints
    one line on stderr and returns null, and the loop of updateGroupMembers
    goes on with the names that are left. *)
Theorem failed_listing_is_absence
  {World : Type}
  (axios : forall r : Request, World -> Reply (ResponseData r) * World)
  (config : Config) (w : World) (name : string) :
  listing_fails axios config w ->
  let r := getSlackUserIdByName axios config name w in
  result r = Normal None /\
  (exists reason,
     events r = [Http (usersListRequest config);
                 Console Stderr Red
                   ("Failed to get Slack ID for " ++ name ++ ": " ++ reason)]) /\
  forall rest slackUserIds,
    lookupSlackIds axios config (name :: rest) slackUserIds w =
      after (events r
             ++ [Console Stdout Yellow ("Could not find Slack ID for " ++ name)])
        (lookupSlackIds axios config rest slackUserIds (world_after r)).
Proof.
  intros Hfail r.
  assert (Hres : result r = Normal None /\
                 exists reason,
                   events r = [Http (usersListRequest config);
                               Console Stderr Red
                                 ("Failed to get Slack ID for " ++ name ++ ": "
                                  ++ reason)]).
  { subst r. destruct Hfail as [[msg [w' E]] | [body [w' [E Hok]]]].
    - rewrite getSlackUserIdByName_rejected with (1 := E).
      split; [reflexivity | now exists msg].
    - rewrite getSlackUserIdByName_not_ok with (1 := E) (2 := Hok).
      split; [reflexivity |].
      now exists ("Failed to list users: " ++ render (list_error body))%string. }
  destruct Hres as [Hnull Hev]. split; [exact Hnull |]. split; [exact Hev |].
  intros rest acc. cbn [lookupSlackIds].
  rewrite bind_normal with (1 := Hnull). unfold console_log.
  rewrite bind_emit, after_after. reflexivity.
Qed.

(** The scenario of the specification: Slack answers not_authed. *)
Lemma failed_listing_is_absence_witness :
  listing_fails (scripted (Demo.with_users_list Demo.not_authed Demo.healthy))
    Demo.config tt /\
  result (getSlackUserIdByName
            (scripted (Demo.with_users_list Demo.not_authed Demo.healthy))
            Demo.config "Alice" tt)
    = Normal None.
Proof.
  assert (Hfail : listing_fails
                    (scripted (Demo.with_users_list Demo.not_authed Demo.healthy))
                    Demo.config tt).
  { right. eexists. exists tt. split; reflexivity. }
  split; [exact Hfail |].
  exact (proj1 (failed_listing_is_absence
                  (scripted (Demo.with_users_list Demo.not_authed Demo.healthy))
                  Demo.config tt "Alice" Hfail)).
Defined.

Example not_authed_lookup :
  getSlackUserIdByName
    (scripted (Demo.with_users_list Demo.not_authed Demo.healthy))
    Demo.config "Alice" tt
  = mkRun (Normal None) tt
      [Http (usersListRequest Demo.config);
       Console Stderr Red
         "Failed to get Slack ID for Alice: Failed to list users: not_authed"].
Proof. reflexivity. Qed.

(** * The group membership updater *)



(** A name that does not resolve is no error, and the request does not
    mention it; the loop prints a line for it.  Here no name resolves and
    the group is left alone. *)
Example nobody_resolves_no_update :
  updateGroupMembers (scripted Demo.healthy) Demo.config ["Zed"] tt =
    mkRun (Normal tt) tt
      [Console Stdout Blue "Current group members:";
       Http (groupUsersRequest Demo.config);
       Http (userInfoRequest Demo.config "W1");
       Console Stdout Blue "Alice";
       Console Stdout Blue (LF ++ "Looking up Slack IDs for users...");
       Http (usersListRequest Demo.config);
       Console Stdout Yellow "Could not find Slack ID for Zed";
       Console Stdout Yellow "No valid Slack user IDs found, skipping update"].
Proof. reflexivity. Qed.

(** * The orchestrator *)

(** C6.  When no record of the payload counts, updateSlackGroup stops after
    the on-call query: it completes normally, having sent that one request
    and printed that nobody is on call; no message is posted and no
    overwrite request is sent. *)
Theorem no_usable_record_no_calls
  {World : Type}
  (axios : forall r : Request, World -> Reply (ResponseData r) * World)
  (config : Config) (w w' : World) (body : OnCallsBody) :
  axios (oncallsRequest config) w = (Resolved body, w') ->
  (forall r u, In r (payload body) -> ~ usable config r u) ->
  let r := updateSlackGroup axios config w in
  result r = Normal tt /\
  events r = [starting;
              Console Stdout Blue "Fetching on-call users from PagerDuty...";
              Http (oncallsRequest config);
              Console Stdout Green "Found on-call users: ";
              Console Stdout Yellow "No on-call users found"] /\
  filter is_post_message (events r) = [] /\
  filter is_update (events r) = [].
Proof.
  intros Hreply Hnone r.
  assert (Hr : r = mkRun (Normal tt) w'
                 [starting;
                  Console Stdout Blue "Fetching on-call users from PagerDuty...";
                  Http (oncallsRequest config);
                  Console Stdout Green "Found on-call users: ";
                  Console Stdout Yellow "No on-call users found"]).
  { subst r. rewrite updateSlackGroup_run.
    rewrite getOnCallUsers_resolved with (1 := Hreply).
    unfold uniqueUsersOf. rewrite (fold_no_usable config _ _ Hnone).
    reflexivity. }
  rewrite Hr. repeat split.
Qed.

Lemma no_usable_record_no_calls_witness :
  (forall r u,
     In r [Demo.oncall "U1" "Alice" "S1"; {| user := None; schedule := None |}] ->
     ~ usable Demo.config r u) /\
  filter is_http (events (updateSlackGroup (scripted Demo.only_excluded)
                            Demo.config tt))
  = [Http (oncallsRequest Demo.config)].
Proof.
  assert (Hnone : forall r u,
             In r [Demo.oncall "U1" "Alice" "S1";
                   {| user := None; schedule := None |}] ->
             ~ usable Demo.config r u).
  { intros r u [<- | [<- | []]] [Hu [sch [Hs Hnot]]].
    - injection Hs as <-. apply Hnot. now left.
    - discriminate Hu. }
  split; [exact Hnone |].
  destruct (no_usable_record_no_calls (scripted Demo.only_excluded) Demo.config
              tt tt _ eq_refl Hnone) as [_ [Hev _]].
  rewrite Hev. reflexivity.
Defined.

(** C10.  A body without the oncalls field, or with null there, is read as
    an empty list of records: getOnCallUsers returns the empty list, and
    updateSlackGroup ends as it does when nobody is on call. *)
Theorem missing_oncalls_is_empty
  {World : Type}
  (axios : forall r : Request, World -> Reply (ResponseData r) * World)
  (config : Config) (w w' : World) :
  axios (oncallsRequest config) w = (Resolved {| oncalls := None |}, w') ->
  getOnCallUsers axios config w =
    mkRun (Normal []) w'
      [Console Stdout Blue "Fetching on-call users from PagerDuty...";
       Http (oncallsRequest config);
       Console Stdout Green "Found on-call users: "] /\
  updateSlackGroup axios config w =
    mkRun (Normal tt) w'
      [starting;
       Console Stdout Blue "Fetching on-call users from PagerDuty...";
       Http (oncallsRequest config);
       Console Stdout Green "Found on-call users: ";
       Console Stdout Yellow "No on-call users found"].
Proof.
  intros Hreply. split.
  - now rewrite getOnCallUsers_resolved with (1 := Hreply).
  - rewrite updateSlackGroup_run.
    now rewrite getOnCallUsers_resolved with (1 := Hreply).
Qed.

Lemma missing_oncalls_is_empty_witness :
  result (getOnCallUsers (scripted Demo.no_oncalls_field) Demo.config tt)
    = Normal [] /\
  result (updateSlackGroup (scripted Demo.no_oncalls_field) Demo.config tt)
    = Normal tt.
Proof.
  destruct (missing_oncalls_is_empty (scripted Demo.no_oncalls_field)
              Demo.config tt tt eq_refl) as [H1 H2].
  rewrite H1, H2. split; reflexivity.
Defined.

(** C9.  updateSlackGroup never throws.  Whatever error comes out of the
    on-call lookup, of the posting of the message or of updateGroupMembers
    is caught and printed on stderr, and the run ends normally.  When the
    on-call lookup fails, nothing is posted and no overwrite request is
    sent. *)
Theorem orchestrator_catches_everything
  {World : Type}
  (axios : forall r : Request, World -> Reply (ResponseData r) * World)
  (config : Config) (w : World) :
  let r := updateSlackGroup axios config w in
  let r1 := getOnCallUsers axios config w in
  result r = Normal tt /\
  (forall e,
     result r1 = Throw e ->
     events r = starting :: events r1 ++ [failed e] /\
     filter is_post_message (events r) = [] /\
     filter is_update (events r) = []) /\
  (forall msg w1,
     axios (oncallsRequest config) w = (Rejected msg, w1) ->
     events r =
       [starting;
        Console Stdout Blue "Fetching on-call users from PagerDuty...";
        Http (oncallsRequest config);
        failed (mkError ("Failed to get on-call users: " ++ msg))]) /\
  (forall u us msg w2,
     result r1 = Normal (u :: us) ->
     axios (postMessageRequest config (u :: us)) (world_after r1)
       = (Rejected msg, w2) ->
     events r = starting :: events r1
                ++ [Http (postMessageRequest config (u :: us));
                    failed (mkError msg)]) /\
  (forall u us data w2 e,
     result r1 = Normal (u :: us) ->
     axios (postMessageRequest config (u :: us)) (world_after r1)
       = (Resolved data, w2) ->
     result (updateGroupMembers axios config (u :: us) w2) = Throw e ->
     events r = starting :: events r1
                ++ Http (postMessageRequest config (u :: us))
                :: events (updateGroupMembers axios config (u :: us) w2)
                ++ [failed e]).
Proof.
  intros r r1.
  assert (Hthrow : forall e,
             result r1 = Throw e ->
             events r = starting :: events r1 ++ [failed e]).
  { intros e He. subst r. rewrite updateSlackGroup_run. fold r1. cbv zeta.
    now rewrite He. }
  split; [| split; [| split; [| split]]].
  - destruct (updateSlackGroup_succeeds axios config w) as [[] H]. exact H.
  - intros e He. split; [now apply Hthrow |].
    rewrite (Hthrow e He). cbn [filter starting is_post_message is_update].
    rewrite !filter_app. cbn [filter failed is_post_message is_update].
    rewrite !app_nil_r. split; apply getOnCallUsers_quiet; reflexivity.
  - intros msg w1 Hrej.
    rewrite (Hthrow (mkError ("Failed to get on-call users: " ++ msg))).
    + subst r1. now rewrite getOnCallUsers_rejected with (1 := Hrej).
    + subst r1. now rewrite getOnCallUsers_rejected with (1 := Hrej).
  - intros u us msg w2 Hu Hrej. subst r. rewrite updateSlackGroup_run.
    fold r1. cbv zeta. now rewrite Hu, Hrej.
  - intros u us data w2 e Hu Hpost He. subst r. rewrite updateSlackGroup_run.
    fold r1. cbv zeta. now rewrite Hu, Hpost, He.
Qed.

(** The scenario of the specification: PagerDuty answers with a 500. *)
Lemma orchestrator_catches_everything_witness :
  scripted Demo.pagerduty_500 (oncallsRequest Demo.config) tt
    = (Rejected "Request failed with status code 500", tt) /\
  events (updateSlackGroup (scripted Demo.pagerduty_500) Demo.config tt) =
    [starting;
     Console Stdout Blue "Fetching on-call users from PagerDuty...";
     Http (oncallsRequest Demo.config);
     Console Stderr Red
       ("Failed to update Slack group: Failed to get on-call users: "
        ++ "Request failed with status code 500")].
Proof.
  split; [reflexivity |].
  exact (proj1 (proj2 (proj2 (orchestrator_catches_everything
           (scripted Demo.pagerduty_500) Demo.config tt)))
           "Request failed with status code 500" tt eq_refl).
Defined.

(** * Failures inside the group membership updater *)




(** * The success flag of Slack's answers *)

(** C8, as stated, fails.  Slack answers users.info with ok false and an
    error: getCurrentGroupMembers leaves the member out and returns
    normally; nothing is thrown, nothing is printed, and the error field is
    not read. *)
Lemma users_info_refusal_is_dropped :
  scripted Demo.info_refused (userInfoRequest Demo.config "W1") tt
    = (Resolved Demo.user_not_found, tt) /\
  getCurrentGroupMembers (scripted Demo.info_refused) Demo.config tt =
    mkRun (Normal []) tt
      [Http (groupUsersRequest Demo.config);
       Http (userInfoRequest Demo.config "W1")].
Proof. split; reflexivity. Qed.

(** C8, amended.  The success flag is looked at after the three reading
    calls.  After the group listing and after the directory listing a false
    flag is thrown as an error that carries the error field, which the same
    function catches: it prints the error on stderr and returns its empty
    answer.  After users.info a false flag makes the loop leave that member
    out and go on. *)
Theorem ok_flag_of_the_reading_calls
  {World : Type}
  (axios : forall r : Request, World -> Reply (ResponseData r) * World)
  (config : Config) :
  (forall w w' body,
     axios (groupUsersRequest config) w = (Resolved body, w') ->
     group_ok body = false ->
     getCurrentGroupMembers axios config w =
       mkRun (Normal []) w'
         [Http (groupUsersRequest config);
          Console Stderr Red
            ("Failed to get current group members: "
             ++ "Failed to get group members: " ++ render (group_error body))]) /\
  (forall name w w' body,
     axios (usersListRequest config) w = (Resolved body, w') ->
     list_ok body = false ->
     getSlackUserIdByName axios config name w =
       mkRun (Normal None) w'
         [Http (usersListRequest config);
          Console Stderr Red
            ("Failed to get Slack ID for " ++ name ++ ": "
             ++ "Failed to list users: " ++ render (list_error body))]) /\
  (forall userId rest userNames w w' body,
     axios (userInfoRequest config userId) w = (Resolved body, w') ->
     info_ok body = false ->
     collectUserNames axios config (userId :: rest) userNames w =
       after [Http (userInfoRequest config userId)]
         (collectUserNames axios config rest userNames w')).
Proof.
  split; [| split].
  - intros w w' body. apply getCurrentGroupMembers_not_ok.
  - intros name w w' body. apply getSlackUserIdByName_not_ok.
  - intros userId rest userNames w w' body H Hok.
    apply collectUserNames_skip with (1 := H). now left.
Qed.

Lemma ok_flag_of_the_reading_calls_witness :
  scripted (Demo.with_group_users (Resolved Demo.missing_scope) Demo.healthy)
    (groupUsersRequest Demo.config) tt
    = (Resolved Demo.missing_scope, tt) /\
  getCurrentGroupMembers
    (scripted (Demo.with_group_users (Resolved Demo.missing_scope) Demo.healthy))
    Demo.config tt =
    mkRun (Normal []) tt
      [Http (groupUsersRequest Demo.config);
       Console Stderr Red
         ("Failed to get current group members: "
          ++ "Failed to get group members: " ++ "missing_scope")].
Proof.
  split; [reflexivity |].
  exact (proj1 (ok_flag_of_the_reading_calls
                  (scripted (Demo.with_group_users (Resolved Demo.missing_scope)
                               Demo.healthy))
                  Demo.config)
           tt tt Demo.missing_scope eq_refl eq_refl).
Defined.

(** The two writing calls are another matter: the script never reads what
    Slack answers to them.  Slack refuses the message and the overwrite
    with ok false; the run goes on and prints that the group was updated. *)
Example refused_writes_go_unnoticed :
  let r := updateSlackGroup (scripted Demo.writes_refused) Demo.config tt in
  result r = Normal tt /\
  filter is_stderr (events r) = [] /\
  In (Console Stdout Green "Successfully updated Slack group members") (events r).
Proof.
  split; [reflexivity | split; [reflexivity |]].
  vm_compute. tauto.
Qed.

(** * More on the on-call resolver *)

(** X1.  The map of getOnCallUsers holds the ids of the users that count,
    each once, in the order in which they first occur in the payload; so
    the result has one name for each of these ids, in that order. *)
Theorem on_call_users_in_order_of_first_appearance
  {World : Type}
  (axios : forall r : Request, World -> Reply (ResponseData r) * World)
  (config : Config) (w w' : World) (body : OnCallsBody) :
  axios (oncallsRequest config) w = (Resolved body, w') ->
  let ids := map user_id (countingUsers config (payload body)) in
  JsMap.keys (uniqueUsersOf config (payload body)) = firstOccurrences ids /\
  exists users,
    result (getOnCallUsers axios config w) = Normal users /\
    length users = length (firstOccurrences ids) /\
    forall n k,
      nth_error (firstOccurrences ids) n = Some k ->
      exists name,
        nth_error users n = Some name /\
        JsMap.get k (uniqueUsersOf config (payload body)) = Some name.
Proof.
  intros Hreply ids.
  assert (Hkeys : JsMap.keys (uniqueUsersOf config (payload body))
                  = firstOccurrences ids).
  { unfold uniqueUsersOf. rewrite fold_counting, keys_fold_set.
    cbn [JsMap.keys JsMap.empty map app]. now apply filter_all. }
  split; [exact Hkeys |].
  exists (JsMap.values (uniqueUsersOf config (payload body))).
  split; [now rewrite getOnCallUsers_resolved with (1 := Hreply) |].
  assert (ND : NoDup (JsMap.keys (uniqueUsersOf config (payload body))))
    by (apply fold_keys_NoDup; constructor).
  rewrite <- Hkeys. clear Hkeys.
  generalize dependent (uniqueUsersOf config (payload body)). intros m ND.
  split; [unfold JsMap.values, JsMap.keys; now rewrite !length_map |].
  induction m as [| [k0 v0] m IH]; intros n k Hn.
  - destruct n; discriminate Hn.
  - inversion ND as [| ? ? Hnotin ND']; subst. destruct n as [| n].
    + injection Hn as <-. exists v0. cbn. now rewrite String.eqb_refl.
    + cbn [JsMap.keys map nth_error] in Hn.
      destruct (IH ND' n k Hn) as [name [Hname Hget]].
      exists name. split; [exact Hname |]. cbn [JsMap.get].
      destruct (k0 =? k) eqn:E; [| exact Hget].
      apply String.eqb_eq in E. subst k0. exfalso. apply Hnotin.
      apply nth_error_In in Hn. exact Hn.
Qed.

Lemma on_call_users_in_order_of_first_appearance_witness :
  JsMap.keys (uniqueUsersOf Demo.config
                [Demo.oncall "U1" "Alice" "S1"; Demo.oncall "U1" "Alice" "S2";
                 Demo.oncall "U2" "Bob" "S3"])
  = ["U1"; "U2"].
Proof.
  exact (proj1 (on_call_users_in_order_of_first_appearance
                  (scripted Demo.healthy) Demo.config tt tt _ eq_refl)).
Defined.

(** X2.  A record without a user, or without a schedule, is passed over:
    getOnCallUsers returns what it returns on the payload without it. *)
Theorem record_without_user_or_schedule_is_skipped
  {World : Type}
  (axios : forall r : Request, World -> Reply (ResponseData r) * World)
  (config : Config) (w w' : World) (before after : list OnCall) (oncall : OnCall) :
  user oncall = None \/ schedule oncall = None ->
  axios (oncallsRequest config) w
    = (Resolved {| oncalls := Some (before ++ oncall :: after) |}, w') ->
  result (getOnCallUsers axios config w)
    = Normal (JsMap.values (uniqueUsersOf config (before ++ after))).
Proof.
  intros Hmissing Hreply.
  rewrite getOnCallUsers_resolved with (1 := Hreply). cbn [result payload oncalls].
  unfold uniqueUsersOf. rewrite !fold_counting. do 3 f_equal.
  unfold countingUsers. rewrite !flat_map_app. cbn [flat_map].
  destruct Hmissing as [-> | ->]; [reflexivity |].
  now destruct (user oncall).
Qed.

Lemma record_without_user_or_schedule_is_skipped_witness :
  result (getOnCallUsers
            (scripted
               (Demo.with_oncalls
                  (Resolved {| oncalls :=
                                 Some [{| user := None; schedule := None |};
                                       Demo.oncall "U2" "Bob" "S3"] |})
                  Demo.healthy))
            Demo.config tt)
  = Normal ["Bob"].
Proof.
  exact (record_without_user_or_schedule_is_skipped
           (scripted
              (Demo.with_oncalls
                 (Resolved {| oncalls :=
                                Some [{| user := None; schedule := None |};
                                      Demo.oncall "U2" "Bob" "S3"] |})
                 Demo.healthy))
           Demo.config tt tt [] [Demo.oncall "U2" "Bob" "S3"]
           {| user := None; schedule := None |} (or_introl eq_refl) eq_refl).
Defined.

(** X3.  getOnCallUsers sends one request in every run, the one to
    PagerDuty.  When that request is rejected it throws an error that reads
    "Failed to get on-call users: " followed by the message of the
    rejection.  Whatever it throws reads "Failed to get on-call users: "
    followed by a message, and then the line that lists the users has not
    been printed. *)
Theorem on_call_lookup_failure_is_wrapped
  {World : Type}
  (axios : forall r : Request, World -> Reply (ResponseData r) * World)
  (config : Config) (w : World) :
  let r := getOnCallUsers axios config w in
  filter is_http (events r) = [Http (oncallsRequest config)] /\
  (forall msg w',
     axios (oncallsRequest config) w = (Rejected msg, w') ->
     result r = Throw (mkError ("Failed to get on-call users: " ++ msg))) /\
  (forall e,
     result r = Throw e ->
     (exists msg : string,
        message e = ("Failed to get on-call users: " ++ msg)%string) /\
     events r = [Console Stdout Blue "Fetching on-call users from PagerDuty...";
                 Http (oncallsRequest config)]).
Proof.
  intros r. subst r.
  destruct (axios (oncallsRequest config) w) as [[msg | body] w'] eqn:E.
  - rewrite getOnCallUsers_rejected with (1 := E). cbn [result events].
    split; [reflexivity |]. split.
    + intros msg' w'' [= <- <-]. reflexivity.
    + intros e [= <-]. split; [now exists msg | reflexivity].
  - rewrite getOnCallUsers_resolved with (1 := E). cbn [result events].
    split; [reflexivity |]. split; [discriminate | discriminate].
Qed.

Lemma on_call_lookup_failure_is_wrapped_witness :
  scripted Demo.pagerduty_500 (oncallsRequest Demo.config) tt
    = (Rejected "Request failed with status code 500", tt) /\
  result (getOnCallUsers (scripted Demo.pagerduty_500) Demo.config tt)
  = Throw (mkError ("Failed to get on-call users: "
                    ++ "Request failed with status code 500")).
Proof.
  split; [reflexivity |].
  exact (proj1 (proj2 (on_call_lookup_failure_is_wrapped
                         (scripted Demo.pagerduty_500) Demo.config tt))
           "Request failed with status code 500" tt eq_refl).
Defined.

(** X4.  Every name getOnCallUsers returns is the display name of a record
    that counts: no name comes from a record that is passed over. *)
Theorem on_call_names_come_from_counting_records
  {World : Type}
  (axios : forall r : Request, World -> Reply (ResponseData r) * World)
  (config : Config) (w w' : World) (body : OnCallsBody) (users : list string) :
  axios (oncallsRequest config) w = (Resolved body, w') ->
  result (getOnCallUsers axios config w) = Normal users ->
  forall name,
    In name users ->
    exists r u, In r (payload body) /\ usable config r u /\ summary u = name.
Proof.
  intros Hreply Hres name Hin.
  rewrite getOnCallUsers_resolved with (1 := Hreply) in Hres.
  cbn [result] in Hres. injection Hres as <-.
  unfold JsMap.values in Hin. apply in_map_iff in Hin.
  destruct Hin as [[k v] [Hv He]]. cbn [snd] in Hv. subst v.
  destruct (fold_entry_origin config _ _ _ He) as [[] | [r [u [Hr [Hu E]]]]].
  injection E as _ ->. now exists r, u.
Qed.

Lemma on_call_names_come_from_counting_records_witness :
  In "Bob" ["Alice"; "Bob"] /\
  exists r u,
    In r (payload {| oncalls := Some [Demo.oncall "U1" "Alice" "S1";
                                      Demo.oncall "U1" "Alice" "S2";
                                      Demo.oncall "U2" "Bob" "S3"] |}) /\
    usable Demo.config r u /\ summary u = "Bob".
Proof.
  assert (Hin : In "Bob" ["Alice"; "Bob"]) by (right; now left).
  split; [exact Hin |].
  exact (on_call_names_come_from_counting_records
           (scripted Demo.healthy) Demo.config tt tt _ ["Alice"; "Bob"]
           eq_refl eq_refl "Bob" Hin).
Defined.

Lemma get_fold_set k us : forall m,
  JsMap.get k (fold_left (fun m u => JsMap.set (user_id u) (summary u) m) us m)
  = match lastSummary k us with
    | Some v => Some v
    | None => JsMap.get k m
    end.
Proof.
  induction us as [| u us IH]; intros m; [reflexivity |].
  cbn [fold_left lastSummary]. rewrite IH.
  destruct (lastSummary k us) as [v |]; [reflexivity |].
  destruct (user_id u =? k) eqn:E.
  - apply String.eqb_eq in E. subst k. apply JsMapFacts.get_set_same.
  - apply JsMapFacts.get_set_other. now apply String.eqb_neq.
Qed.

Lemma get_absent k m : ~ In k (JsMap.keys m) -> JsMap.get k m = None.
Proof.
  induction m as [| [k' v'] m IH]; [reflexivity |]. cbn. intros H.
  destruct (k' =? k) eqn:E; [apply String.eqb_eq in E; tauto | tauto].
Qed.

(** Two maps with the same keys in the same order and the same value under
    each key are the same map. *)
Lemma map_ext_eq m1 : forall m2,
  NoDup (JsMap.keys m1) -> JsMap.keys m1 = JsMap.keys m2 ->
  (forall k, JsMap.get k m1 = JsMap.get k m2) -> m1 = m2.
Proof.
  induction m1 as [| [k1 v1] m1 IH]; intros [| [k2 v2] m2] ND Hkeys Hget;
    try discriminate Hkeys; [reflexivity |].
  cbn in Hkeys. injection Hkeys as <- Hkeys.
  inversion ND as [| ? ? Hnotin ND']; subst.
  pose proof (Hget k1) as H1. cbn in H1. rewrite String.eqb_refl in H1.
  injection H1 as <-. f_equal. apply IH; [exact ND' | exact Hkeys |].
  intros k. destruct (string_dec k1 k) as [<- | Hne].
  - assert (Hn2 : ~ In k1 (JsMap.keys m2))
      by (unfold JsMap.keys in *; now rewrite <- Hkeys).
    now rewrite (get_absent _ _ Hnotin), (get_absent _ _ Hn2).
  - specialize (Hget k). cbn in Hget.
    apply String.eqb_neq in Hne. now rewrite Hne in Hget.
Qed.

Lemma filter_none {A} (P : A -> bool) l :
  (forall y, In y l -> P y = false) -> filter P l = [].
Proof.
  intros H. induction l as [| y l IH]; [reflexivity |]. cbn [filter].
  rewrite (H y) by now left. apply IH. intros z Hz. apply H. now right.
Qed.

(** X5.  Listing a payload twice changes nothing: on the records followed
    by the same records once more, getOnCallUsers returns what it returns
    on the records. *)
Theorem repeated_payload_same_users
  {World : Type}
  (axios : forall r : Request, World -> Reply (ResponseData r) * World)
  (config : Config) (w w' : World) (l : list OnCall) :
  axios (oncallsRequest config) w = (Resolved {| oncalls := Some (l ++ l) |}, w') ->
  uniqueUsersOf config (l ++ l) = uniqueUsersOf config l /\
  result (getOnCallUsers axios config w)
    = Normal (JsMap.values (uniqueUsersOf config l)).
Proof.
  intros Hreply.
  assert (Hsame : uniqueUsersOf config (l ++ l) = uniqueUsersOf config l).
  { unfold uniqueUsersOf. rewrite fold_left_app.
    set (m := fold_left (addOnCall config) l JsMap.empty).
    assert (Hm : m = fold_left (fun m u => JsMap.set (user_id u) (summary u) m)
                       (countingUsers config l) JsMap.empty)
      by apply fold_counting.
    assert (Hk : JsMap.keys m
                 = firstOccurrences (map user_id (countingUsers config l))).
    { rewrite Hm, keys_fold_set. cbn [JsMap.keys JsMap.empty map app].
      now apply filter_all. }
    apply map_ext_eq.
    - apply fold_keys_NoDup. apply fold_keys_NoDup. constructor.
    - rewrite fold_counting, keys_fold_set, <- Hk.
      rewrite filter_none; [apply app_nil_r |].
      intros y Hy. apply includes_In in Hy. now rewrite Hy.
    - intros k. rewrite fold_counting, get_fold_set.
      destruct (lastSummary k (countingUsers config l)) as [v |] eqn:E;
        [| reflexivity].
      now rewrite Hm, get_fold_set, E. }
  split; [exact Hsame |].
  rewrite getOnCallUsers_resolved with (1 := Hreply). cbn [result payload oncalls].
  now rewrite Hsame.
Qed.

Lemma repeated_payload_same_users_witness :
  result (getOnCallUsers
            (scripted
               (Demo.with_oncalls
                  (Resolved {| oncalls :=
                                 Some ([Demo.oncall "U1" "Alice" "S2";
                                        Demo.oncall "U2" "Bob" "S3"]
                                       ++ [Demo.oncall "U1" "Alice" "S2";
                                           Demo.oncall "U2" "Bob" "S3"]) |})
                  Demo.healthy))
            Demo.config tt)
  = Normal ["Alice"; "Bob"].
Proof.
  exact (proj2 (repeated_payload_same_users
                  (scripted
                     (Demo.with_oncalls
                        (Resolved {| oncalls :=
                                       Some ([Demo.oncall "U1" "Alice" "S2";
                                              Demo.oncall "U2" "Bob" "S3"]
                                             ++ [Demo.oncall "U1" "Alice" "S2";
                                                 Demo.oncall "U2" "Bob" "S3"]) |})
                        Demo.healthy))
                  Demo.config tt tt
                  [Demo.oncall "U1" "Alice" "S2"; Demo.oncall "U2" "Bob" "S3"]
                  eq_refl)).
Defined.

(** * More on reading the group *)

Section GroupReading.

Context {World : Type}.
Variable axios : forall r : Request, World -> Reply (ResponseData r) * World.
Variable config : Config.

Lemma after_nil {A} (r : Run (World := World) A) : after [] r = r.
Proof. now destruct r. Qed.

Lemma bind_ret {A B} (a : A) (k : A -> M (World := World) B) w :
  bind (ret a) k w = k a w.
Proof. unfold bind, ret. apply after_nil. Qed.

(** A [try] that starts with a call which is answered is the call, then
    the [try] on what follows. *)
Lemma try_catch_await_resolved {A} r (k : ResponseData r -> M A) handler
  w w' data :
  axios r w = (Resolved data, w') ->
  try_catch (bind (await axios r) k) handler w
  = after [Http r] (try_catch (k data) handler w').
Proof.
  intros E. unfold try_catch. rewrite bind_await_resolved with (1 := E).
  destruct (k data w') as [[a | e] w'' evs]; cbn [after]; [reflexivity |].
  now rewrite after_after.
Qed.

(** The loop of getCurrentGroupMembers while users.info answers. *)
Lemma collectUserNames_answered info users :
  (forall u, In u users ->
     forall w0, exists w1,
       axios (userInfoRequest config u) w0 = (Resolved (info u), w1)) ->
  forall userNames w,
    result (collectUserNames axios config users userNames w)
      = Normal (userNames ++ namesOf info users) /\
    events (collectUserNames axios config users userNames w)
      = map (fun u => Http (userInfoRequest config u)) users.
Proof.
  induction users as [| u rest IH]; intros Hinfo acc w.
  - cbn. now rewrite app_nil_r.
  - destruct (Hinfo u (or_introl eq_refl) w) as [w1 E].
    assert (Hrest : forall u', In u' rest ->
              forall w0, exists w1,
                axios (userInfoRequest config u') w0 = (Resolved (info u'), w1))
      by (intros u' Hu'; apply Hinfo; now right).
    cbn [collectUserNames namesOf flat_map map].
    rewrite bind_await_resolved with (1 := E).
    destruct (info_ok (info u)); [destruct (info_user (info u)) as [x |] |];
      rewrite result_after, events_after;
      match goal with
      | |- context [collectUserNames axios config _ ?a w1] =>
          destruct (IH Hrest a w1) as [R1 E1]; rewrite R1, E1
      end;
      rewrite <- ?app_assoc, ?app_nil_r; split; reflexivity.
Qed.


End GroupReading.

(** X6.  When the group listing is answered with ok and users.info is
    answered for every listed member, getCurrentGroupMembers asks
    users.info once for each member, in the order of the listing, and
    returns the names of the members whose answer is ok and has a user, in
    that order.  A listing without the users field is a listing of
    nobody. *)
Theorem group_members_are_read_in_order
  {World : Type}
  (axios : forall r : Request, World -> Reply (ResponseData r) * World)
  (config : Config) (w w1 : World) (body : GroupUsersBody)
  (info : string -> UserInfoBody) :
  axios (groupUsersRequest config) w = (Resolved body, w1) ->
  group_ok body = true ->
  (forall u, In u (groupUsers body) ->
     forall w0, exists w',
       axios (userInfoRequest config u) w0 = (Resolved (info u), w')) ->
  let r := getCurrentGroupMembers axios config w in
  result r = Normal (namesOf info (groupUsers body)) /\
  events r = Http (groupUsersRequest config)
             :: map (fun u => Http (userInfoRequest config u)) (groupUsers body).
Proof.
  intros E Hok Hinfo r. subst r. unfold getCurrentGroupMembers.
  rewrite try_catch_await_resolved with (1 := E).
  rewrite Hok. cbn [negb].
  destruct (collectUserNames_answered axios config info (groupUsers body)
              Hinfo [] w1) as [R1 E1].
  rewrite result_after, events_after.
  rewrite try_catch_normal with (a := namesOf info (groupUsers body));
    rewrite bind_ret; fold (groupUsers body); cbv zeta;
    [now rewrite R1, E1 | exact R1].
Qed.

Lemma group_members_are_read_in_order_witness :
  result (getCurrentGroupMembers (scripted Demo.healthy) Demo.config tt)
    = Normal ["Alice"] /\
  events (getCurrentGroupMembers (scripted Demo.healthy) Demo.config tt)
    = [Http (groupUsersRequest Demo.config);
       Http (userInfoRequest Demo.config "W1")].
Proof.
  exact (group_members_are_read_in_order
           (scripted Demo.healthy) Demo.config tt tt _
           (fun _ => {| info_ok := true;
                        info_user := Some {| info_real_name := "Alice" |};
                        info_error := None |})
           eq_refl eq_refl
           (fun u _ w0 => ex_intro _ w0 eq_refl)).
Defined.



(** * What each function sends *)

Section Requests.

Context {World : Type}.
Variable axios : forall r : Request, World -> Reply (ResponseData r) * World.
Variable config : Config.

(** Of the events [P] tells from console lines and users.info requests,
    getCurrentGroupMembers does one: the listing request. *)
Lemma getCurrentGroupMembers_requests (P : Event -> bool) w :
  (forall s c text, P (Console s c text) = false) ->
  (forall u, P (Http (userInfoRequest config u)) = false) ->
  filter P (events (getCurrentGroupMembers axios config w))
  = filter P [Http (groupUsersRequest config)].
Proof.
  intros P_console P_info.
  destruct (axios (groupUsersRequest config) w) as [[msg | body] w1] eqn:E.
  - rewrite getCurrentGroupMembers_rejected with (1 := E).
    cbn [events filter]. now rewrite P_console.
  - unfold getCurrentGroupMembers.
    rewrite try_catch_await_resolved with (1 := E).
    rewrite events_after, filter_app.
    match goal with
    | |- _ ++ filter P (events (?c w1)) = _ =>
        assert (Q : quiet P c); [| rewrite Q; apply app_nil_r]
    end.
    apply quiet_try_catch; [| unfold console_error; auto with run].
    apply quiet_bind; [destruct (negb (group_ok body)); auto with run |].
    intros _. cbv zeta. apply collectUserNames_quiet.
    + exact P_info.
Qed.

(** Whatever Slack answers, a lookup is one users.list request. *)
Lemma getSlackUserIdByName_requests name w :
  filter is_http (events (getSlackUserIdByName axios config name w))
  = [Http (usersListRequest config)].
Proof.
  destruct (axios (usersListRequest config) w) as [[msg | body] w1] eqn:E.
  - now rewrite getSlackUserIdByName_rejected with (1 := E).
  - destruct (list_ok body) eqn:Hok.
    + now rewrite getSlackUserIdByName_ok with (1 := E) (2 := Hok).
    + now rewrite getSlackUserIdByName_not_ok with (1 := E) (2 := Hok).
Qed.

(** The loop of updateGroupMembers does nothing but lookups and lines. *)
Lemma lookupSlackIds_requests users : forall slackUserIds w,
  filter is_http (events (lookupSlackIds axios config users slackUserIds w))
  = repeat (Http (usersListRequest config)) (length users).
Proof.
  induction users as [| u rest IH]; intros acc w; [reflexivity |].
  cbn [lookupSlackIds length repeat].
  destruct (getSlackUserIdByName_succeeds axios config u w) as [slackId E].
  rewrite bind_normal with (1 := E), events_after, filter_app.
  rewrite getSlackUserIdByName_requests. cbn [app]. f_equal.
  destruct slackId as [i |]; [destruct (truthy i) |];
    unfold console_log; rewrite bind_emit, events_after, filter_app;
    cbn [filter is_http app]; apply IH.
Qed.

(** What updateGroupMembers does of a kind [P] that leaves out console
    lines and users.info requests: it reads the group and looks the names
    up, and when some name has resolved it sends the overwrite and, once
    that is answered, reads the group again. *)
Lemma updateGroupMembers_requests (P : Event -> bool) users w :
  (forall s c text, P (Console s c text) = false) ->
  (forall u, P (Http (userInfoRequest config u)) = false) ->
  let r1 := getCurrentGroupMembers axios config w in
  let r2 := lookupSlackIds axios config users [] (world_after r1) in
  let ids := resolvedIds axios config users (world_after r1) in
  filter P (events (updateGroupMembers axios config users w))
  = filter P [Http (groupUsersRequest config)]
    ++ filter P (events r2)
    ++ match ids with
       | [] => []
       | _ :: _ =>
           filter P [Http (updateRequest config ids)]
           ++ match fst (axios (updateRequest config ids) (world_after r2)) with
              | Resolved _ => filter P [Http (groupUsersRequest config)]
              | Rejected _ => []
              end
       end.
Proof.
  intros P_console P_info r1 r2 ids.
  assert (Q1 : forall w0,
             filter P (events (getCurrentGroupMembers axios config w0))
             = filter P [Http (groupUsersRequest config)])
    by (intros w0; now apply getCurrentGroupMembers_requests).
  rewrite updateGroupMembers_run. fold r1 r2 ids. cbv zeta.
  destruct ids as [| i ids'].
  - cbn [events]. rewrite filter_app. cbn [filter]. rewrite !P_console.
    rewrite filter_app. unfold r1. rewrite Q1. cbn [filter].
    rewrite !P_console. now rewrite !app_nil_r.
  - destruct (axios (updateRequest config (i :: ids')) (world_after r2))
      as [[msg | data] w3]; cbn [fst events];
      rewrite filter_app; cbn [filter]; rewrite !P_console;
      rewrite filter_app; unfold r1; rewrite Q1; cbn [filter];
      rewrite !P_console; rewrite <- !app_assoc; do 2 f_equal.
    + now rewrite !app_nil_r.
    + rewrite filter_app, Q1. cbn [filter]. rewrite !P_console.
      rewrite !app_nil_r.
      destruct (P (Http (groupUsersRequest config)));
        destruct (P (Http (updateRequest config (i :: ids')))); reflexivity.
Qed.


End Requests.

Lemma filter_all_repeat {A} (P : A -> bool) x n :
  P x = true -> filter P (repeat x n) = repeat x n.
Proof.
  intros H. induction n as [| n IH]; [reflexivity |].
  cbn [repeat filter]. now rewrite H, IH.
Qed.

(** X8.  Whatever Slack answers, getCurrentGroupMembers sends one listing
    request for the group, which is its first event; every other request
    it sends is a users.info request, so it writes nothing. *)
Theorem reading_the_group_sends_one_listing
  {World : Type}
  (axios : forall r : Request, World -> Reply (ResponseData r) * World)
  (config : Config) (w : World) :
  let r := getCurrentGroupMembers axios config w in
  filter (fun e => is_http e && negb (is_user_info e)) (events r)
    = [Http (groupUsersRequest config)] /\
  (exists evs, events r = Http (groupUsersRequest config) :: evs) /\
  filter is_write (events r) = [].
Proof.
  intros r. subst r. split; [| split].
  - now rewrite getCurrentGroupMembers_requests.
  - destruct (axios (groupUsersRequest config) w) as [[msg | body] w1] eqn:E.
    + rewrite getCurrentGroupMembers_rejected with (1 := E). cbn [events].
      now eexists.
    + unfold getCurrentGroupMembers.
      rewrite try_catch_await_resolved with (1 := E), events_after.
      now eexists.
  - now rewrite getCurrentGroupMembers_requests.
Qed.

(** X9.  getSlackUserIdByName makes no identifier up: when it returns one,
    Slack has answered the listing with ok, and the identifier is that of
    an entry of the listing which carries the name and before which no
    entry carries it. *)
Theorem returned_id_is_of_a_matching_entry
  {World : Type}
  (axios : forall r : Request, World -> Reply (ResponseData r) * World)
  (config : Config) (w : World) (name i : string) :
  result (getSlackUserIdByName axios config name w) = Normal (Some i) ->
  exists body w' before m after,
    axios (usersListRequest config) w = (Resolved body, w') /\
    list_ok body = true /\
    list_members body = before ++ m :: after /\
    (forall m', In m' before -> ~ matches name m') /\
    matches name m /\ member_id m = i.
Proof.
  intros Hres.
  destruct (axios (usersListRequest config) w) as [[msg | body] w'] eqn:E.
  - rewrite getSlackUserIdByName_rejected with (1 := E) in Hres.
    discriminate Hres.
  - destruct (list_ok body) eqn:Hok.
    + rewrite getSlackUserIdByName_ok with (1 := E) (2 := Hok) in Hres.
      cbn [result] in Hres.
      assert (Hfind : forall l,
                 (match find (nameMatches name) l with
                  | Some u => Some (member_id u)
                  | None => None
                  end) = Some i ->
                 exists before m after,
                   l = before ++ m :: after /\
                   (forall m', In m' before -> ~ matches name m') /\
                   matches name m /\ member_id m = i).
      { induction l as [| x l IH]; cbn [find]; [discriminate |].
        destruct (nameMatches name x) eqn:Ex.
        - intros [= <-]. exists [], x, l. split; [reflexivity |].
          split; [intros m' [] |]. split; [| reflexivity].
          now apply nameMatches_matches.
        - intros H. destruct (IH H) as [before [m [after [-> [Hb [Hm Hi]]]]]].
          exists (x :: before), m, after. split; [reflexivity |].
          split; [| now split].
          intros m' [<- | Hin]; [| now apply Hb].
          intros Hx. apply nameMatches_matches in Hx. congruence. }
      injection Hres as Hres.
      destruct (Hfind _ Hres) as [before [m [after [Hl [Hb [Hm Hi]]]]]].
      exists body, w', before, m, after. repeat split; assumption || reflexivity.
    + rewrite getSlackUserIdByName_not_ok with (1 := E) (2 := Hok) in Hres.
      discriminate Hres.
Qed.

Lemma returned_id_is_of_a_matching_entry_witness :
  exists body w' before m after,
    scripted Demo.healthy (usersListRequest Demo.config) tt = (Resolved body, w') /\
    list_ok body = true /\
    list_members body = before ++ m :: after /\
    (forall m', In m' before -> ~ matches "Bob" m') /\
    matches "Bob" m /\ member_id m = "W2".
Proof.
  exact (returned_id_is_of_a_matching_entry
           (scripted Demo.healthy) Demo.config tt "Bob" "W2" eq_refl).
Defined.

(** X10.  Nothing is kept from one lookup to the next: updateGroupMembers
    asks Slack for the whole directory once for every name it is given, and
    these are all the users.list requests it sends. *)
Theorem directory_is_fetched_once_per_name
  {World : Type}
  (axios : forall r : Request, World -> Reply (ResponseData r) * World)
  (config : Config) (users : list string) (w : World) :
  filter is_users_list (events (updateGroupMembers axios config users w))
  = repeat (Http (usersListRequest config)) (length users).
Proof.
  rewrite updateGroupMembers_requests by reflexivity. cbv zeta.
  set (r2 := lookupSlackIds axios config users [] _).
  assert (H2 : filter is_users_list (events r2)
               = repeat (Http (usersListRequest config)) (length users)).
  { rewrite <- (filter_absorb is_users_list is_http).
    - unfold r2. rewrite lookupSlackIds_requests.
      now apply filter_all_repeat.
    - intros [r | s0 c0 t0]; [reflexivity | discriminate]. }
  rewrite H2. cbn [filter is_users_list app].
  destruct (resolvedIds axios config users _); [now rewrite app_nil_r |].
  cbn [filter is_users_list app].
  destruct (fst (axios _ _)); cbn [filter is_users_list app];
    now rewrite app_nil_r.
Qed.

Lemma resolvedIds_sound {World : Type}
  (axios : forall r : Request, World -> Reply (ResponseData r) * World)
  (config : Config) (users : list string) : forall w,
  Forall (fun i => i <> "") (resolvedIds axios config users w) /\
  length (resolvedIds axios config users w) <= length users.
Proof.
  induction users as [| u rest IH]; intros w; cbn [resolvedIds length].
  - split; [constructor | lia].
  - destruct (IH (world_after (getSlackUserIdByName axios config u w)))
      as [Hall Hlen].
    destruct (result (getSlackUserIdByName axios config u w)) as [[i |] | e];
      try (split; [exact Hall | lia]).
    destruct (truthy i) eqn:T; [| split; [exact Hall | lia]].
    split; [| cbn [length]; lia].
    constructor; [| exact Hall].
    intros ->. discriminate T.
Qed.

(** X11.  The loop of updateGroupMembers always completes, and the
    identifiers it gathers are never empty strings and never more than
    the names it was given: an entry of the directory whose id is empty
    counts as not found. *)
Theorem gathered_ids_are_not_empty
  {World : Type}
  (axios : forall r : Request, World -> Reply (ResponseData r) * World)
  (config : Config) (users : list string) (w : World) :
  exists ids,
    result (lookupSlackIds axios config users [] w) = Normal ids /\
    Forall (fun i => i <> "") ids /\
    length ids <= length users.
Proof.
  exists (resolvedIds axios config users w).
  split; [apply (lookupSlackIds_result axios config users [] w) |].
  apply resolvedIds_sound.
Qed.

(** X12.  updateGroupMembers does not read what Slack answers to the
    overwrite request: once some name has resolved and the request is
    answered, whatever the answer says, it reads the group a second time,
    prints that the group was updated and completes normally.  The group
    is read twice in that case and once in any other. *)
Theorem overwrite_answer_is_not_read
  {World : Type}
  (axios : forall r : Request, World -> Reply (ResponseData r) * World)
  (config : Config) (users : list string) (w : World) :
  let r := updateGroupMembers axios config users w in
  let r1 := getCurrentGroupMembers axios config w in
  let r2 := lookupSlackIds axios config users [] (world_after r1) in
  let ids := resolvedIds axios config users (world_after r1) in
  (forall data w3,
     ids <> [] ->
     axios (updateRequest config ids) (world_after r2) = (Resolved data, w3) ->
     result r = Normal tt /\
     (exists evs,
        events r = evs ++ [Console Stdout Green
                             "Successfully updated Slack group members"]) /\
     filter is_group_listing (events r)
       = [Http (groupUsersRequest config); Http (groupUsersRequest config)]) /\
  ((ids = [] \/
    exists msg w3,
      axios (updateRequest config ids) (world_after r2) = (Rejected msg, w3)) ->
   filter is_group_listing (events r) = [Http (groupUsersRequest config)]).
Proof.
  intros r r1 r2 ids.
  assert (Hg : filter is_group_listing (events r)
               = [Http (groupUsersRequest config)]
                 ++ match ids with
                    | [] => []
                    | _ :: _ =>
                        match fst (axios (updateRequest config ids)
                                     (world_after r2)) with
                        | Resolved _ => [Http (groupUsersRequest config)]
                        | Rejected _ => []
                        end
                    end).
  { subst r. rewrite updateGroupMembers_requests by reflexivity.
    fold r1 r2 ids. cbv zeta.
    assert (Q2 : filter is_group_listing (events r2) = [])
      by (apply lookupSlackIds_quiet; reflexivity).
    rewrite Q2. cbn [filter is_group_listing groupUsersRequest app].
    destruct ids; [reflexivity |].
    cbn [filter is_group_listing updateRequest app]. reflexivity. }
  split.
  - intros data w3 Hne Hres.
    assert (Hr : r = updateGroupMembers axios config users w) by reflexivity.
    rewrite updateGroupMembers_run in Hr. fold r1 r2 ids in Hr. cbv zeta in Hr.
    rewrite Hg. destruct ids as [| i ids']; [congruence |].
    rewrite Hres in Hr. rewrite Hres. cbn [fst].
    split; [now rewrite Hr |]. split; [| reflexivity].
    rewrite Hr. cbn [events].
    match goal with
    | |- exists evs, ?X ++ ?c :: ?d :: ?e :: ?Y ++ [?a; ?b] = _ =>
        exists (X ++ c :: d :: e :: Y ++ [a])
    end.
    repeat first [rewrite <- app_assoc | progress cbn [app]]. reflexivity.
  - intros [Hnil | [msg [w3 Hrej]]]; rewrite Hg.
    + now rewrite Hnil.
    + destruct ids; [reflexivity |]. now rewrite Hrej.
Qed.

Lemma overwrite_answer_is_not_read_witness :
  resolvedIds (scripted Demo.writes_refused) Demo.config ["Alice"] tt <> [] /\
  scripted Demo.writes_refused (updateRequest Demo.config ["W1"]) tt
    = (Resolved {| ack_ok := false; ack_error := Some "permission_denied" |}, tt) /\
  result (updateGroupMembers (scripted Demo.writes_refused) Demo.config
            ["Alice"] tt) = Normal tt.
Proof.
  assert (Hne : resolvedIds (scripted Demo.writes_refused) Demo.config
                  ["Alice"] tt <> []) by (vm_compute; discriminate).
  split; [exact Hne |]. split; [reflexivity |].
  exact (proj1 (proj1 (overwrite_answer_is_not_read
                         (scripted Demo.writes_refused) Demo.config ["Alice"] tt)
                  _ tt Hne eq_refl)).
Defined.

(** * The whole run *)





